(** * Synapse test reactor and third-party event rules: a shallow embedding

    Sources embedded here:
    - [tests/server.py]: [FakeChannel], [wait_until_result],
      [ThreadedMemoryReactorClock] (with its [FakeResolver]), [ThreadPool]
      and [FakeTransport];
    - [synapse/events/third_party_rules.py]: [ThirdPartyEventRules].

    Python objects are records, attribute assignment is an explicit state
    update, and every call made to a collaborator that lives outside the two
    files (a protocol, a producer, the function handed to the thread pool)
    is recorded, in order, in the [trace] of the world.  Exceptions are an
    outcome next to the state, because a Python exception leaves the
    mutations made before it in place.

    Collaborators are opaque: a call to one of them may raise or return,
    and what it does may depend on the whole trace before it, but it does
    not call back into the transport, the channel or the reactor while it
    runs.  The transport's [other] and [_protocol] are two objects. *)

From Stdlib Require Import ZArith Lia.
From stdpp Require Import base option list gmap strings.

Local Open Scope Z_scope.

(** ** Byte strings *)

Definition bytes := list Byte.byte.

(** [b[:m]] for a Python [bytes] value and an integer [m]: a negative bound
    counts from the end, and the bound is clipped to the string. *)
Definition slice_to (b : bytes) (m : Z) : bytes :=
  if 0 <=? m then take (Z.to_nat m) b
  else take (Z.to_nat (Z.of_nat (length b) + m)) b.

(** [b[n:]] for a non-negative [n]. *)
Definition slice_from (b : bytes) (n : nat) : bytes := drop n b.

(** Truth value of a byte string: [if self.buffer]. *)
Definition truthy (b : bytes) : bool :=
  match b with [] => false | _ :: _ => true end.

(** ** Exceptions and outcomes *)

Inductive exn :=
| Exception (msg : string)
| AttributeError (msg : string)
| TimedOutException (msg : string)
| DNSLookupError (msg : string)
| KeyError (key : string)
| CollaboratorError.

Inductive outcome (A : Type) :=
| Return (a : A)
| Raise (e : exn)
| OutOfFuel.
Arguments Return {A} a.
Arguments Raise {A} e.
Arguments OutOfFuel {A}.

(** A computation over a mutable store [S]: the store after the call, and
    how the call ended.  [OutOfFuel] marks a loop that was cut by the model's
    fuel, never a behaviour of the program. *)
Definition M (S A : Type) := S -> S * outcome A.

Definition ret {S A} (a : A) : M S A := fun s => (s, Return a).
Definition raise {S A} (e : exn) : M S A := fun s => (s, Raise e).
Definition bind {S A B} (c : M S A) (k : A -> M S B) : M S B :=
  fun s =>
    match c s with
    | (s', Return a) => k a s'
    | (s', Raise e) => (s', Raise e)
    | (s', OutOfFuel) => (s', OutOfFuel)
    end.
Definition get {S} : M S S := fun s => (s, Return s).
Definition modify {S} (f : S -> S) : M S unit := fun s => (f s, Return tt).

(** [try: c except Exception: h]. *)
Definition try_except {S A} (c : M S A) (h : exn -> M S A) : M S A :=
  fun s =>
    match c s with
    | (s', Raise e) => h e s'
    | r => r
    end.

Declare Scope py_scope.
Delimit Scope py_scope with py.
Notation "'let!' x ':=' c 'in' k" :=
  (bind c (fun x => k))
    (at level 10, x name, c at level 100, k at level 200) : py_scope.
Notation "c1 ';;' c2" :=
  (bind c1 (fun _ => c2))
    (at level 100, c2 at level 200, right associativity) : py_scope.
Notation "'when' b 'then' c" :=
  (if b then c else ret tt) (at level 10, b at level 100, c at level 200) : py_scope.
Local Open Scope py_scope.

(** ** The virtual clock *)

Module Clock.
Section WithAction.
Context {A : Type}.

Record DelayedCall := { getTime : Z; func : A }.

(** Virtual time is counted in tenths of a unit: the only delays and
    steps of the source are [0], [0.0] and [0.1], written [0] and [1]
    here.  The rounding of floating-point sums is not modelled. *)
Record t := { rightNow : Z; calls : list DelayedCall }.

(** Modelled from the spec: the delayed-call queue of Twisted's [Clock],
    which [MemoryReactorClock] inherits and which is not part of the
    repository.  Section 3 of the specification fixes its order: calls run
    in non-decreasing due time, and calls with equal due time run in
    insertion order.  A new call is therefore placed behind every pending
    call that is due no later. *)
Fixpoint schedule (dc : DelayedCall) (l : list DelayedCall) : list DelayedCall :=
  match l with
  | [] => [dc]
  | c :: l' =>
      if getTime dc <? getTime c then dc :: c :: l' else c :: schedule dc l'
  end.

(** [callLater(delay, f)]: due at [now + delay]. *)
Definition callLater (delay : Z) (f : A) (c : t) : t :=
  {| rightNow := rightNow c;
     calls := schedule {| getTime := rightNow c + delay; func := f |} (calls c) |}.

Definition set_calls (l : list DelayedCall) (c : t) : t :=
  {| rightNow := rightNow c; calls := l |}.

Definition tick (amount : Z) (c : t) : t :=
  {| rightNow := rightNow c + amount; calls := calls c |}.
End WithAction.
Arguments DelayedCall : clear implicits.
Arguments t : clear implicits.
End Clock.

(** ** Collaborators and the calls made to them *)

(** What the simulator asks of objects it does not own, in call order.
    [EvDelayedCall] is the one entry that is not such a call: the reactor
    writes it when it takes a delayed call off its queue to run it, so that
    the trace shows which delayed call an entry belongs to. *)
Inductive Event :=
| EvDelayedCall
| EvDataReceived (data : bytes)            (* other.dataReceived(data) *)
| EvConnectionLost (reason : option string) (* _protocol.connectionLost(reason) *)
| EvResumeProducing (producer : nat)
| EvPauseProducing (producer : nat)
| EvFunction (job : nat)                   (* the submitted function is called *)
| EvOnResult (job : nat) (success : bool) (res : string).

(** An [IProtocol] as the transport uses it.  What a call does may depend
    on everything that happened before it. *)
Record Protocol := {
  transport_attr : bool;     (* [getattr(p, "transport") is not None] *)
  dataReceived_raises : list Event -> bytes -> bool;
  connectionLost_raises : list Event -> bool
}.

(** What [resumeProducing()] hands back. *)
Inductive ResumeResult :=
| FiredDeferred      (* a Deferred that already has its result *)
| PendingDeferred    (* a Deferred that has not fired, and does not during the run *)
| NotDeferred.       (* [None], as a plain pull producer returns *)

Record Producer := {
  producer_id : nat;
  resume_result : list Event -> ResumeResult
}.

(** The work handed to [ThreadPool.callInThreadWithCallback]. *)
Inductive FunctionResult :=
| Returns (value : string)
| Raises (failure : string).

Record Job := { job_id : nat; job_function : list Event -> FunctionResult }.

(** Callables that the source hands to [callLater]. *)
Inductive Action :=
| AFlush               (* [self.flush] of the transport *)
| ATransportProduce    (* [_produce] of [FakeTransport.registerProducer] *)
| AChannelProduce      (* [_produce] of [FakeChannel.registerProducer] *)
| ADeferredCallback (j : Job).  (* [d.callback] of [callInThreadWithCallback] *)

(** ** Records of [tests/server.py] *)

Record FakeChannel := {
  _producer : option Producer;
  chan_producerStreaming : option bool
}.

Record FakeTransport := {
  other : Protocol;
  _protocol : option Protocol;
  disconnecting : bool;
  disconnected : bool;
  connected : bool;
  buffer : bytes;
  producer : option Producer;
  producerStreaming : option bool;
  autoflush : bool
}.

Record World := {
  reactor : Clock.t Action;
  transport : FakeTransport;
  channel : FakeChannel;
  trace : list Event
}.

(** *** Attribute assignment *)

Definition set_disconnecting (v : bool) (t : FakeTransport) : FakeTransport :=
  {| other := other t; _protocol := _protocol t; disconnecting := v;
     disconnected := disconnected t; connected := connected t;
     buffer := buffer t; producer := producer t;
     producerStreaming := producerStreaming t; autoflush := autoflush t |}.

Definition set_disconnected (v : bool) (t : FakeTransport) : FakeTransport :=
  {| other := other t; _protocol := _protocol t; disconnecting := disconnecting t;
     disconnected := v; connected := connected t;
     buffer := buffer t; producer := producer t;
     producerStreaming := producerStreaming t; autoflush := autoflush t |}.

Definition set_connected (v : bool) (t : FakeTransport) : FakeTransport :=
  {| other := other t; _protocol := _protocol t; disconnecting := disconnecting t;
     disconnected := disconnected t; connected := v;
     buffer := buffer t; producer := producer t;
     producerStreaming := producerStreaming t; autoflush := autoflush t |}.

Definition set_buffer (v : bytes) (t : FakeTransport) : FakeTransport :=
  {| other := other t; _protocol := _protocol t; disconnecting := disconnecting t;
     disconnected := disconnected t; connected := connected t;
     buffer := v; producer := producer t;
     producerStreaming := producerStreaming t; autoflush := autoflush t |}.

Definition set_producer (v : option Producer) (t : FakeTransport) : FakeTransport :=
  {| other := other t; _protocol := _protocol t; disconnecting := disconnecting t;
     disconnected := disconnected t; connected := connected t;
     buffer := buffer t; producer := v;
     producerStreaming := producerStreaming t; autoflush := autoflush t |}.

Definition set_producerStreaming (v : option bool) (t : FakeTransport) : FakeTransport :=
  {| other := other t; _protocol := _protocol t; disconnecting := disconnecting t;
     disconnected := disconnected t; connected := connected t;
     buffer := buffer t; producer := producer t;
     producerStreaming := v; autoflush := autoflush t |}.

Definition with_reactor (f : Clock.t Action -> Clock.t Action) (w : World) : World :=
  {| reactor := f (reactor w); transport := transport w;
     channel := channel w; trace := trace w |}.

Definition with_transport (f : FakeTransport -> FakeTransport) (w : World) : World :=
  {| reactor := reactor w; transport := f (transport w);
     channel := channel w; trace := trace w |}.

Definition with_channel (f : FakeChannel -> FakeChannel) (w : World) : World :=
  {| reactor := reactor w; transport := transport w;
     channel := f (channel w); trace := trace w |}.

Definition record (ev : Event) (w : World) : World :=
  {| reactor := reactor w; transport := transport w;
     channel := channel w; trace := trace w ++ [ev] |}.

(** [self._reactor.callLater(delay, f)]; the returned handle is unused by
    every caller in the file. *)
Definition callLater (delay : Z) (f : Action) : M World unit :=
  modify (with_reactor (Clock.callLater delay f)).

(** *** Calls into collaborators *)

Definition dataReceived (p : Protocol) (data : bytes) : M World unit :=
  let! w := get in
  modify (record (EvDataReceived data));;
  if dataReceived_raises p (trace w) data then raise CollaboratorError else ret tt.

Definition connectionLost (p : Protocol) (reason : option string) : M World unit :=
  let! w := get in
  modify (record (EvConnectionLost reason));;
  if connectionLost_raises p (trace w) then raise CollaboratorError else ret tt.

Definition producer_resumeProducing (p : Producer) : M World ResumeResult :=
  let! w := get in
  modify (record (EvResumeProducing (producer_id p)));;
  ret (resume_result p (trace w)).

Definition producer_pauseProducing (p : Producer) : M World unit :=
  modify (record (EvPauseProducing (producer_id p))).

(** ** [FakeTransport] *)

Definition loseConnection (reason : option string) : M World unit :=
  let! w := get in
  when negb (disconnecting (transport w)) then
    modify (with_transport (set_disconnecting true));;
    (match _protocol (transport w) with
     | Some p => connectionLost p reason
     | None => ret tt
     end);;
    let! w := get in
    (* if we still have data to write, delay until that is done *)
    if truthy (buffer (transport w)) then ret tt
    else
      modify (with_transport (set_connected false));;
      modify (with_transport (set_disconnected true)).

Definition abortConnection : M World unit :=
  let! w := get in
  (when negb (disconnecting (transport w)) then
     modify (with_transport (set_disconnecting true));;
     match _protocol (transport w) with
     | Some p => connectionLost p None
     | None => ret tt
     end);;
  modify (with_transport (set_disconnected true)).

Definition pauseProducing : M World unit :=
  let! w := get in
  match producer (transport w) with
  | None => ret tt
  | Some p => producer_pauseProducing p
  end.

Definition resumeProducing : M World unit :=
  let! w := get in
  match producer (transport w) with
  | None => ret tt
  | Some p => let! _ := producer_resumeProducing p in ret tt
  end.

Definition unregisterProducer : M World unit :=
  let! w := get in
  match producer (transport w) with
  | None => ret tt
  | Some _ => modify (with_transport (set_producer None))
  end.

(** The closure [_produce] of [registerProducer].  It reads
    [self.producer] when it runs; [d.addCallback] runs its argument at once
    on a Deferred that has fired, stores it on one that has not, and is an
    attribute error on [None]. *)
Definition transport_produce : M World unit :=
  let! w := get in
  match producer (transport w) with
  | None =>
      raise (AttributeError "'NoneType' object has no attribute 'resumeProducing'")
  | Some p =>
      let! d := producer_resumeProducing p in
      match d with
      | FiredDeferred => callLater 1 ATransportProduce
      | PendingDeferred => ret tt
      | NotDeferred =>
          raise (AttributeError "'NoneType' object has no attribute 'addCallback'")
      end
  end.

Definition registerProducer (p : Producer) (streaming : bool) : M World unit :=
  modify (with_transport (set_producer (Some p)));;
  modify (with_transport (set_producerStreaming (Some streaming)));;
  when negb streaming then callLater 0 ATransportProduce.

Definition write (byt : bytes) : M World unit :=
  let! w := get in
  if disconnecting (transport w) then
    raise (Exception "Writing to disconnecting FakeTransport")
  else
    modify (with_transport (set_buffer (buffer (transport w) ++ byt)));;
    (* always actually do the write asynchronously *)
    when autoflush (transport w) then callLater 0 AFlush.

Fixpoint writeSequence (seq : list bytes) : M World unit :=
  match seq with
  | [] => ret tt
  | x :: seq' => write x;; writeSequence seq'
  end.

Definition flush (maxbytes : option Z) : M World unit :=
  let! w := get in
  if negb (truthy (buffer (transport w))) then
    (* nothing to do. Don't write empty buffers *)
    ret tt
  else if disconnected (transport w) then ret tt
  else if negb (transport_attr (other (transport w))) then
    (* the other has no transport yet; reschedule *)
    when autoflush (transport w) then callLater 0 AFlush
  else
    let to_write :=
      match maxbytes with
      | Some m => slice_to (buffer (transport w)) m
      | None => buffer (transport w)
      end in
    let! delivered :=
      try_except
        (dataReceived (other (transport w)) to_write;; ret true)
        (fun _ => ret false) in
    if negb delivered then ret tt
    else
      let! w := get in
      modify (with_transport
                (set_buffer (slice_from (buffer (transport w)) (length to_write))));;
      let! w := get in
      (when truthy (buffer (transport w)) && autoflush (transport w) then
         callLater 0 AFlush);;
      when negb (truthy (buffer (transport w))) && disconnecting (transport w) then
        modify (with_transport (set_disconnected true)).

(** ** [FakeChannel] *)

Definition set__producer (v : option Producer) (c : FakeChannel) : FakeChannel :=
  {| _producer := v; chan_producerStreaming := chan_producerStreaming c |}.

Definition set_chan_producerStreaming (v : option bool) (c : FakeChannel) : FakeChannel :=
  {| _producer := _producer c; chan_producerStreaming := v |}.

(** The closure [_produce] of [FakeChannel.registerProducer]; the value
    returned by [resumeProducing] is dropped. *)
Definition channel_produce : M World unit :=
  let! w := get in
  match _producer (channel w) with
  | Some p =>
      let! _ := producer_resumeProducing p in
      callLater 1 AChannelProduce
  | None => ret tt
  end.

Definition channel_registerProducer (p : Producer) (streaming : bool) : M World unit :=
  modify (with_channel (set__producer (Some p)));;
  modify (with_channel (set_chan_producerStreaming (Some streaming)));;
  when negb streaming then callLater 0 AChannelProduce.

Definition channel_unregisterProducer : M World unit :=
  let! w := get in
  match _producer (channel w) with
  | None => ret tt
  | Some _ => modify (with_channel (set__producer None))
  end.

(** ** [ThreadPool] *)

(** [d.callback(True)] on the Deferred that [callInThreadWithCallback]
    builds: the first callback calls the function, and the [addBoth]
    callback [_] then hands its result, or the [Failure] wrapping what it
    raised, to [onResult]. *)
Definition deferred_callback (j : Job) : M World unit :=
  let! w := get in
  modify (record (EvFunction (job_id j)));;
  match job_function j (trace w) with
  | Raises failure => modify (record (EvOnResult (job_id j) false failure))
  | Returns value => modify (record (EvOnResult (job_id j) true value))
  end.

Definition callInThreadWithCallback (j : Job) : M World unit :=
  callLater 0 (ADeferredCallback j).

(** ** Running the reactor *)

Definition fire (a : Action) : M World unit :=
  match a with
  | AFlush => flush None
  | ATransportProduce => transport_produce
  | AChannelProduce => channel_produce
  | ADeferredCallback j => deferred_callback j
  end.

(** Modelled from the spec: the loop of [Clock.advance] (Twisted, outside
    the repository), from section 4.1: run every pending call that is due,
    in queue order, calls scheduled on the way included.  A call is taken
    off the queue before it runs, and what it raises leaves [advance]. *)
Fixpoint run_due (fuel : nat) : M World unit :=
  fun w =>
    match Clock.calls (reactor w) with
    | [] => (w, Return tt)
    | c :: rest =>
        if Clock.getTime c <=? Clock.rightNow (reactor w) then
          match fuel with
          | O => (w, OutOfFuel)
          | S fuel' =>
              (modify (with_reactor (Clock.set_calls rest));;
               modify (record EvDelayedCall);;
               fire (Clock.func c);;
               run_due fuel') w
          end
        else (w, Return tt)
    end.

Definition advance (fuel : nat) (amount : Z) : M World unit :=
  modify (with_reactor (Clock.tick amount));;
  run_due fuel.

(** ** What a test can do to the world *)

Inductive Op :=
| OpWrite (byt : bytes)
| OpWriteSequence (seq : list bytes)
| OpFlush (maxbytes : option Z)
| OpLoseConnection (reason : option string)
| OpAbortConnection
| OpPauseProducing
| OpResumeProducing
| OpRegisterProducer (p : Producer) (streaming : bool)
| OpUnregisterProducer
| OpChannelRegisterProducer (p : Producer) (streaming : bool)
| OpChannelUnregisterProducer
| OpCallInThreadWithCallback (j : Job)
| OpAdvance (fuel : nat) (amount : Z).

Definition run_op (o : Op) : M World unit :=
  match o with
  | OpWrite byt => write byt
  | OpWriteSequence seq => writeSequence seq
  | OpFlush maxbytes => flush maxbytes
  | OpLoseConnection reason => loseConnection reason
  | OpAbortConnection => abortConnection
  | OpPauseProducing => pauseProducing
  | OpResumeProducing => resumeProducing
  | OpRegisterProducer p streaming => registerProducer p streaming
  | OpUnregisterProducer => unregisterProducer
  | OpChannelRegisterProducer p streaming => channel_registerProducer p streaming
  | OpChannelUnregisterProducer => channel_unregisterProducer
  | OpCallInThreadWithCallback j => callInThreadWithCallback j
  | OpAdvance fuel amount => advance fuel amount
  end.

(** The test goes on after a call that raised: the world it continues in is
    the one the call left behind. *)
Fixpoint run_ops (ops : list Op) (w : World) : World :=
  match ops with
  | [] => w
  | o :: ops' => run_ops ops' (fst (run_op o w))
  end.

(** The byte strings passed to the peer's [dataReceived], in call order. *)
Definition delivered (tr : list Event) : list bytes :=
  omap (fun e => match e with EvDataReceived d => Some d | _ => None end) tr.

Definition received_bytes (tr : list Event) : bytes := concat (delivered tr).

(** The producers whose [resumeProducing] was called, in call order. *)
Definition resumed (tr : list Event) : list nat :=
  omap (fun e => match e with EvResumeProducing p => Some p | _ => None end) tr.


(** The number of delayed calls started, counting from [n], when the first
    entry satisfying [sel] was written: the delayed call the entry belongs
    to, or [n] itself when it was written outside every delayed call. *)
Fixpoint hop_of (sel : Event -> bool) (n : nat) (tr : list Event) : option nat :=
  match tr with
  | [] => None
  | e :: tr' =>
      if sel e then Some n
      else hop_of sel (match e with EvDelayedCall => S n | _ => n end) tr'
  end.

Definition is_function (job : nat) (e : Event) : bool :=
  match e with EvFunction j => Nat.eqb j job | _ => false end.

Definition is_on_result (job : nat) (e : Event) : bool :=
  match e with EvOnResult j _ _ => Nat.eqb j job | _ => false end.

(** The results handed to [onResult] for a job, in call order. *)
Definition on_results (job : nat) (tr : list Event) : list (bool * string) :=
  omap (fun e => match e with
                 | EvOnResult j ok res => if Nat.eqb j job then Some (ok, res) else None
                 | _ => None
                 end) tr.

(** ** [wait_until_result] *)

(** The function takes its clock and its request as arguments and uses
    four things of them: [clock.run()], [clock.advance(0.1)],
    [request.finished] and [request._channel._producer], which is either
    absent or an object whose [resumeProducing] is called.  The store [S]
    is whatever these read and change. *)
Section WaitUntilResult.
Context {S : Type}.
Variable clock_run : M S unit.
Variable clock_advance : Z -> M S unit.
Variable request_finished : S -> bool.
Variable channel_producer : S -> option (M S unit).

Definition resume_channel_producer : M S unit :=
  let! s := get in
  match channel_producer s with
  | Some resume => resume
  | None => ret tt
  end.

(** The [while] loop, with the counter [x] of the source.  The fuel bounds
    the number of times the loop test is found true. *)
Fixpoint wait_loop (fuel : nat) (timeout x : Z) : M S unit :=
  let! s := get in
  if negb (request_finished s) then
    match fuel with
    | O => fun s => (s, OutOfFuel)
    | Datatypes.S fuel' =>
        (* If there's a producer, tell it to resume producing so we get content *)
        resume_channel_producer;;
        let x := x + 1 in
        if x >? timeout then
          raise (TimedOutException "Timed out waiting for request to finish.")
        else
          clock_advance 1;;
          wait_loop fuel' timeout x
    end
  else ret tt.

Definition wait_until_result (fuel : nat) (timeout : Z) : M S unit :=
  clock_run;;
  wait_loop fuel timeout 0.
End WaitUntilResult.

(** ** The resolver of [ThreadedMemoryReactorClock] *)

(** A Deferred built by [succeed] or [fail]: it has its result already. *)
Inductive Deferred (V : Type) :=
| succeed (v : V)
| fail (e : exn).
Arguments succeed {V} v.
Arguments fail {V} e.

(** [FakeResolver.getHostByName]; [lookups] is the dictionary that the
    reactor also keeps as [self.lookups].  The [timeout] argument is unused. *)
Definition getHostByName (lookups : gmap string string) (name : string)
  : Deferred string :=
  if negb (bool_decide (is_Some (lookups !! name))) then
    fail (DNSLookupError ("OH NO: unknown " +:+ name))
  else
    match lookups !! name with
    | Some address => succeed address
    | None => fail (KeyError name)
    end.

(** ** [ThirdPartyEventRules] *)

Module Rules.

Definition StateKey : Type := string * string.

(** An event, as far as this file looks into it. *)
Record EventBase := { event_id : string; content : string }.

Inductive StoreCall :=
| GetEvent (id : string)
| GetFilteredCurrentStateIds (room_id : string)
| GetEvents (ids : list string).

(** The datastore: what it holds and, in [store_calls], every query made
    to it. *)
Record DataStore := {
  events : gmap string EventBase;
  current_state_ids : gmap string (list (StateKey * string));
  store_calls : list StoreCall
}.

Definition log_call (c : StoreCall) (s : DataStore) : DataStore :=
  {| events := events s; current_state_ids := current_state_ids s;
     store_calls := store_calls s ++ [c] |}.

(** [store.get_event(event_id, allow_none=True)] *)
Definition get_event (id : string) : M DataStore (option EventBase) :=
  modify (log_call (GetEvent id));;
  let! s := get in
  ret (events s !! id).

(** [store.get_filtered_current_state_ids(room_id)] *)
Definition get_filtered_current_state_ids (room_id : string)
  : M DataStore (list (StateKey * string)) :=
  modify (log_call (GetFilteredCurrentStateIds room_id));;
  let! s := get in
  ret (default [] (current_state_ids s !! room_id)).

(** [store.get_events(event_ids)]: the events that exist, by id. *)
Definition get_events (ids : list string) : M DataStore (gmap string EventBase) :=
  modify (log_call (GetEvents ids));;
  let! s := get in
  ret (filter (fun kv => kv.1 ∈ ids) (events s)).

(** The administrator's module.  Its callbacks are awaited: they may use
    the store and may raise. *)
Record RulesModule := {
  mod_check_event_allowed :
    EventBase -> gmap StateKey (option EventBase) -> M DataStore bool;
  mod_on_create_room : string -> string -> bool -> M DataStore bool;
  mod_check_threepid_can_be_invited :
    string -> string -> gmap StateKey EventBase -> M DataStore bool;
  mod_check_room_can_be_added_to_public_rooms_directory :
    string -> gmap StateKey EventBase -> M DataStore bool
}.

(** [hs.config.third_party_event_rules]: nothing, or a pair of a module
    class (possibly [None]) and its configuration. *)
Record HomeServerConfig := {
  third_party_event_rules : option (option (string -> RulesModule) * string)
}.

Record ThirdPartyEventRules := { third_party_rules : option RulesModule }.

(** [__init__]; [self.store] is the store the computations run over. *)
Definition init (config : HomeServerConfig) : ThirdPartyEventRules :=
  let '(module, cfg) :=
    match third_party_event_rules config with
    | Some (module, cfg) => (module, Some cfg)
    | None => (None, None)
    end in
  match module with
  | Some cls => {| third_party_rules := Some (cls (default "" cfg)) |}
  | None => {| third_party_rules := None |}
  end.

(** The event context gives the ids of the previous state, in the order of
    [prev_state_ids.items()]. *)
Record EventContext := { prev_state_ids : list (StateKey * string) }.

Fixpoint fetch_state_events (ids : list (StateKey * string))
    (state_events : gmap StateKey (option EventBase))
  : M DataStore (gmap StateKey (option EventBase)) :=
  match ids with
  | [] => ret state_events
  | (key, id) :: ids' =>
      let! ev := get_event id in
      fetch_state_events ids' (<[key := ev]> state_events)
  end.

Definition check_event_allowed (self : ThirdPartyEventRules)
    (event : EventBase) (context : EventContext) : M DataStore bool :=
  match third_party_rules self with
  | None => ret true
  | Some rules =>
      (* Retrieve the state events from the database. *)
      let! state_events := fetch_state_events (prev_state_ids context) ∅ in
      mod_check_event_allowed rules event state_events
  end.

Definition on_create_room (self : ThirdPartyEventRules)
    (requester config : string) (is_requester_admin : bool) : M DataStore bool :=
  match third_party_rules self with
  | None => ret true
  | Some rules => mod_on_create_room rules requester config is_requester_admin
  end.

Fixpoint collect_state_events (ids : list (StateKey * string))
    (room_state_events : gmap string EventBase)
    (state_events : gmap StateKey EventBase)
  : M DataStore (gmap StateKey EventBase) :=
  match ids with
  | [] => ret state_events
  | (key, id) :: ids' =>
      match room_state_events !! id with
      | Some ev => collect_state_events ids' room_state_events (<[key := ev]> state_events)
      | None => raise (KeyError id)
      end
  end.

Definition _get_state_events_dict_for_room (room_id : string)
  : M DataStore (gmap StateKey EventBase) :=
  let! state_ids := get_filtered_current_state_ids room_id in
  let! room_state_events := get_events (state_ids.*2) in
  collect_state_events state_ids room_state_events ∅.

Definition check_threepid_can_be_invited (self : ThirdPartyEventRules)
    (medium address room_id : string) : M DataStore bool :=
  match third_party_rules self with
  | None => ret true
  | Some rules =>
      let! state_events := _get_state_events_dict_for_room room_id in
      mod_check_threepid_can_be_invited rules medium address state_events
  end.

Definition check_room_can_be_added_to_public_rooms_directory
    (self : ThirdPartyEventRules) (room_id : string) : M DataStore bool :=
  match third_party_rules self with
  | None => ret true
  | Some rules =>
      let! state_events := _get_state_events_dict_for_room room_id in
      mod_check_room_can_be_added_to_public_rooms_directory rules room_id state_events
  end.

End Rules.

(** The operations other than [write] and [writeSequence]. *)
Definition is_write (o : Op) : bool :=
  match o with
  | OpWrite _ | OpWriteSequence _ => true
  | _ => false
  end.

Definition without_writes (ops : list Op) : list Op :=
  List.filter (fun o => negb (is_write o)) ops.

(** The bytes handed to [write] and [writeSequence] by a list of
    operations, in call order. *)
Fixpoint written (ops : list Op) : bytes :=
  match ops with
  | [] => []
  | OpWrite byt :: ops' => byt ++ written ops'
  | OpWriteSequence seq :: ops' => concat seq ++ written ops'
  | _ :: ops' => written ops'
  end.

(** Writes, flushes with any bound, and turns of the reactor. *)
Definition is_io (o : Op) : bool :=
  match o with
  | OpWrite _ | OpWriteSequence _ | OpFlush _ | OpAdvance _ _ => true
  | _ => false
  end.

Definition is_disconnecting (w : World) : Prop :=
  disconnecting (transport w) = true.

(** What [flush(maxbytes)] would hand to the peer. *)
Definition to_write (maxbytes : option Z) (w : World) : bytes :=
  match maxbytes with
  | Some m => slice_to (buffer (transport w)) m
  | None => buffer (transport w)
  end.

(** ** Sample worlds *)

Module Sample.

Definition attached : Protocol :=
  {| transport_attr := true;
     dataReceived_raises := fun _ _ => false;
     connectionLost_raises := fun _ => false |}.

Definition unattached : Protocol :=
  {| transport_attr := false;
     dataReceived_raises := fun _ _ => false;
     connectionLost_raises := fun _ => false |}.

Definition broken : Protocol :=
  {| transport_attr := true;
     dataReceived_raises := fun _ _ => true;
     connectionLost_raises := fun _ => false |}.

Definition new_transport (peer : Protocol) (auto : bool) (buf : bytes) : FakeTransport :=
  {| other := peer; _protocol := Some attached;
     disconnecting := false; disconnected := false; connected := true;
     buffer := buf; producer := None; producerStreaming := None;
     autoflush := auto |}.

Definition new_world (t : FakeTransport) : World :=
  {| reactor := {| Clock.rightNow := 0; Clock.calls := [] |};
     transport := t;
     channel := {| _producer := None; chan_producerStreaming := None |};
     trace := [] |}.

Definition ping : bytes := [Byte.x50; Byte.x49; Byte.x4e; Byte.x47].
Definition pong : bytes := [Byte.x50; Byte.x4f; Byte.x4e; Byte.x47].

Definition connected_world : World := new_world (new_transport attached true []).

Definition deferred_producer : Producer :=
  {| producer_id := 7; resume_result := fun _ => FiredDeferred |}.

Definition waiting_producer : Producer :=
  {| producer_id := 8; resume_result := fun _ => PendingDeferred |}.

Definition plain_producer : Producer :=
  {| producer_id := 9; resume_result := fun _ => NotDeferred |}.

Definition query_job : Job :=
  {| job_id := 1; job_function := fun _ => Returns "rows" |}.

Definition failing_job : Job :=
  {| job_id := 2; job_function := fun _ => Raises "boom" |}.

End Sample.

(** The transport is disconnected and the peer has been handed exactly the
    byte strings [chunks] so far. *)
Definition closed_with (chunks : list bytes) (w : World) : Prop :=
  disconnected (transport w) = true /\ delivered (trace w) = chunks.

(** The claim that a flush towards a peer without transport always puts
    itself back on the reactor's queue, as the specification words it. *)
Definition flush_always_reschedules (maxbytes : option Z) (w : World) : Prop :=
  truthy (buffer (transport w)) = true ->
  disconnected (transport w) = false ->
  transport_attr (other (transport w)) = false ->
  let w' := fst (flush maxbytes w) in
  delivered (trace w') = delivered (trace w)
  /\ buffer (transport w') = buffer (transport w)
  /\ Clock.calls (reactor w') =
     Clock.schedule {| Clock.getTime := Clock.rightNow (reactor w) + 0;
                       Clock.func := AFlush |}
       (Clock.calls (reactor w)).

(** A connected transport whose peer has its transport and never raises,
    and for which delivered and buffered bytes together are [all]. *)
Definition carries (all : bytes) (w : World) : Prop :=
  disconnecting (transport w) = false
  /\ disconnected (transport w) = false
  /\ transport_attr (other (transport w)) = true
  /\ (forall h b, dataReceived_raises (other (transport w)) h b = false)
  /\ received_bytes (trace w) ++ buffer (transport w) = all.

(** The claim that [onResult] is run by a second scheduled call, one call
    after the call that runs the function: submit the job, let the reactor
    run everything that is due, and compare the delayed calls to which the
    two entries of the trace belong. *)
Definition two_hop_notification (j : Job) (w : World) : Prop :=
  let w2 := fst ((callInThreadWithCallback j;; advance 2 0) w) in
  let added := drop (length (trace w)) (trace w2) in
  exists n,
    hop_of (is_function (job_id j)) 0 added = Some n
    /\ hop_of (is_on_result (job_id j)) 0 added = Some (S n).

(** What [onResult] is called with. *)
Definition on_result_args (r : FunctionResult) : bool * string :=
  match r with
  | Returns value => (true, value)
  | Raises failure => (false, failure)
  end.

(** A test that only lets time pass, in the given steps. *)
Definition advances (fuel : nat) (amounts : list Z) : list Op :=
  map (OpAdvance fuel) amounts.

(** The claim that a registered non-streaming producer is resumed once per
    tenth of virtual time, in its weakest reading: after registration, when
    [n] tenths have passed, at least [n] calls of [resumeProducing] have
    been made. *)
Definition pumped_every_tenth (register : M World unit) (w : World) : Prop :=
  forall n : nat,
    let w' := fst ((register;; advance (S (S n)) (Z.of_nat n)) w) in
    (n <= length (resumed (drop (length (trace w)) (trace w'))))%nat.

(** The pump of the channel is the only thing on the queue, due within a
    tenth, and the producer is registered. *)
Definition channel_pumping (p : Producer) (w : World) : Prop :=
  _producer (channel w) = Some p
  /\ exists due, due <= Clock.rightNow (reactor w) + 1
     /\ Clock.calls (reactor w) =
        [{| Clock.getTime := due; Clock.func := AChannelProduce |}].

Definition transport_pumping (p : Producer) (w : World) : Prop :=
  producer (transport w) = Some p
  /\ exists due, due <= Clock.rightNow (reactor w) + 1
     /\ Clock.calls (reactor w) =
        [{| Clock.getTime := due; Clock.func := ATransportProduce |}].

(** Nothing but pumps of an object without producer is on the queue. *)
Definition channel_idle (w : World) : Prop :=
  _producer (channel w) = None
  /\ Forall (fun c => Clock.func c = AChannelProduce) (Clock.calls (reactor w)).

Definition transport_idle (w : World) : Prop :=
  producer (transport w) = None
  /\ Forall (fun c => Clock.func c = ATransportProduce) (Clock.calls (reactor w)).

(** ** Sample requests and configurations *)

Module SampleRequest.

(** A reactor with [run()] doing nothing to the clock, a request that never
    finishes, and a channel without producer. *)
Definition clock_run : M World unit := ret tt.
Definition clock_advance (amount : Z) : M World unit := advance 5 amount.
Definition never_finished (_ : World) : bool := false.
Definition no_producer (_ : World) : option (M World unit) := None.

(** The world after [j] steps of a tenth. *)
Definition after (j : nat) : World :=
  with_reactor (Clock.tick (Z.of_nat j)) Sample.connected_world.

(** A request that is finished from the second step on. *)
Definition finished_at_two (w : World) : bool :=
  2 <=? Clock.rightNow (reactor w).

Definition lookups : gmap string string := {[ "example.test" := "10.0.0.5" ]}.

Definition no_rules : Rules.HomeServerConfig :=
  {| Rules.third_party_event_rules := None |}.

Definition empty_store : Rules.DataStore :=
  {| Rules.events := ∅; Rules.current_state_ids := ∅; Rules.store_calls := [] |}.

End SampleRequest.

(** [c] keeps [P], however it ends. *)
Definition preserves {A} (P : World -> Prop) (c : M World A) : Prop :=
  forall w, P w -> P (fst (c w)).

(** [chunk] is a run of consecutive bytes of [held]. *)
Definition from_buffer (held chunk : bytes) : Prop :=
  exists s, s `suffix_of` held /\ chunk `prefix_of` s.

(** The transport is closing, its buffer is an end of [held], and every
    byte string handed to the peer after the first [n] ones was cut from
    [held]. *)
Definition drains (held : bytes) (n : nat) (w : World) : Prop :=
  is_disconnecting w
  /\ buffer (transport w) `suffix_of` held
  /\ (n <= length (delivered (trace w)))%nat
  /\ Forall (from_buffer held) (drop n (delivered (trace w))).

(** ** Further observations of the transport *)

(** The reasons passed to the local protocol's [connectionLost], in call
    order. *)
Definition lost (tr : list Event) : list (option string) :=
  omap (fun e => match e with EvConnectionLost r => Some r | _ => None end) tr.


(** The local protocol has been told of the loss [n] times and the
    transport is still open, or at most once more and it is closing. *)
Definition notified (n : nat) (w : World) : Prop :=
  if disconnecting (transport w)
  then (length (lost (trace w)) <= S n)%nat
  else length (lost (trace w)) = n.

(** The local protocol, if there is one, never raises from
    [connectionLost]. *)
Definition quiet_owner (w : World) : Prop :=
  forall p, _protocol (transport w) = Some p ->
            forall h, connectionLost_raises p h = false.

(** A closing transport that is not disconnected yet has bytes to send. *)
Definition still_sending (w : World) : Prop :=
  quiet_owner w
  /\ (disconnecting (transport w) = true ->
      disconnected (transport w) = false ->
      truthy (buffer (transport w)) = true).

(** Operations other than a flush with a bound. *)
Definition is_unbounded (o : Op) : bool :=
  match o with
  | OpFlush (Some _) => false
  | _ => true
  end.

(** Every byte string handed to the peer after the first [n] ones is
    non-empty. *)
Definition no_empty_delivery (n : nat) (w : World) : Prop :=
  (n <= length (delivered (trace w)))%nat
  /\ Forall (fun chunk => chunk <> []) (drop n (delivered (trace w))).

(** Calls of [pauseProducing], [resumeProducing] and [unregisterProducer]
    on the transport. *)
Definition is_flow_control (o : Op) : bool :=
  match o with
  | OpPauseProducing | OpResumeProducing | OpUnregisterProducer => true
  | _ => false
  end.

(** ** [wait_until_result] on the world of this file *)

(** [request._channel._producer] when the request sits on the channel of
    the world, as [make_request] builds it: the producer registered on the
    [FakeChannel], with the call the loop makes on it. *)
Definition request_channel_producer (w : World) : option (M World unit) :=
  match _producer (channel w) with
  | Some p => Some (let! _ := producer_resumeProducing p in ret tt)
  | None => None
  end.

(** A request that never finishes. *)
Definition never_finished (_ : World) : bool := false.

(** ** The result dictionary of [FakeChannel] *)

Module ChannelResult.

(** [self.result]: a dictionary whose keys are fixed by the code that
    fills it, one optional field per key.  The empty dictionary has no
    field set. *)
Record t := {
  version : option bytes;
  code : option bytes;
  reason : option bytes;
  headers : option (list (bytes * bytes));
  body : option bytes;
  done : option bool
}.

Definition empty : t :=
  {| version := None; code := None; reason := None; headers := None;
     body := None; done := None |}.

(** [not self.result] *)
Definition is_empty (r : t) : bool :=
  match version r, code r, reason r, headers r, body r, done r with
  | None, None, None, None, None, None => true
  | _, _, _, _, _, _ => false
  end.

Definition writeHeaders (v c rs : bytes) (hs : list (bytes * bytes)) : M t unit :=
  modify (fun r =>
    {| version := Some v; code := Some c; reason := Some rs; headers := Some hs;
       body := body r; done := done r |}).

Definition set_body (b : bytes) (r : t) : t :=
  {| version := version r; code := code r; reason := reason r;
     headers := headers r; body := Some b; done := done r |}.

(** [write(content)]; the assertion that [content] is a byte string is in
    the type. *)
Definition write (content : bytes) : M t unit :=
  let! r := get in
  (match body r with
   | None => modify (set_body [])
   | Some _ => ret tt
   end);;
  let! r := get in
  match body r with
  | Some b => modify (set_body (b ++ content))
  | None => raise (KeyError "body")
  end.

Definition requestDone : M t unit :=
  modify (fun r =>
    {| version := version r; code := code r; reason := reason r;
       headers := headers r; body := body r; done := Some true |}).

(** The property [code]; [int] stands for Python's conversion of the
    stored value. *)
Definition get_code (int : bytes -> outcome Z) : M t Z :=
  let! r := get in
  if is_empty r then raise (Exception "No result yet.")
  else
    match code r with
    | Some c => fun s => (s, int c)
    | None => raise (KeyError "code")
    end.

(** The property [json_body]; [loads] stands for decoding the body as
    UTF-8 and parsing it as JSON. *)
Definition json_body {J} (loads : bytes -> outcome J) : M t J :=
  let! r := get in
  if is_empty r then raise (Exception "No result yet.")
  else
    match body r with
    | Some b => fun s => (s, loads b)
    | None => raise (KeyError "body")
    end.

(** The property [headers]: the raw headers, in the order in which they
    are added to the [Headers] object. *)
Definition get_headers : M t (list (bytes * bytes)) :=
  let! r := get in
  if is_empty r then raise (Exception "No result yet.")
  else
    match headers r with
    | Some hs => ret hs
    | None => raise (KeyError "headers")
    end.

(** What the request does to its channel. *)
Inductive Op :=
| WriteHeaders (v c rs : bytes) (hs : list (bytes * bytes))
| Write (content : bytes)
| RequestDone.

Definition run_op (o : Op) : M t unit :=
  match o with
  | WriteHeaders v c rs hs => writeHeaders v c rs hs
  | Write content => write content
  | RequestDone => requestDone
  end.

Fixpoint run_ops (ops : list Op) (r : t) : t :=
  match ops with
  | [] => r
  | o :: ops' => run_ops ops' (fst (run_op o r))
  end.

(** The contents written, in call order. *)
Fixpoint contents (ops : list Op) : list bytes :=
  match ops with
  | [] => []
  | Write content :: ops' => content :: contents ops'
  | _ :: ops' => contents ops'
  end.

(** The status code of the last [writeHeaders], if any. *)
Fixpoint last_code (ops : list Op) (acc : option bytes) : option bytes :=
  match ops with
  | [] => acc
  | WriteHeaders _ c _ _ :: ops' => last_code ops' (Some c)
  | _ :: ops' => last_code ops' acc
  end.

End ChannelResult.

(** ** Connection attempts on [ThreadedMemoryReactorClock] *)

Module Tcp.

(** A callable registered with [add_tcp_client_callback]. *)
Record Callback := { callback_id : nat; callback_raises : bool }.

(** An entry of [tcpClients]. *)
Record Attempt := {
  host : string;
  port : Z;
  factory : nat;
  timeout : Z;
  bindAddress : option (string * Z)
}.

(** The reactor's connection bookkeeping; [called] lists the callbacks
    that were run, in call order. *)
Record t := {
  _tcp_callbacks : gmap (string * Z) Callback;
  tcpClients : list Attempt;
  called : list nat
}.

Definition add_tcp_client_callback (h : string) (p : Z) (callback : Callback)
  : M t unit :=
  modify (fun s =>
    {| _tcp_callbacks := <[(h, p) := callback]> (_tcp_callbacks s);
       tcpClients := tcpClients s; called := called s |}).

(** Modelled from the spec: [MemoryReactor.connectTCP] of Twisted, outside
    the repository; section 4.4 has it record the attempt for later
    pairing and hand back a connection handle, here the recorded entry. *)
Definition super_connectTCP (h : string) (p : Z) (f : nat) (to : Z)
    (bind_address : option (string * Z)) : M t Attempt :=
  let a := {| host := h; port := p; factory := f; timeout := to;
              bindAddress := bind_address |} in
  modify (fun s =>
    {| _tcp_callbacks := _tcp_callbacks s;
       tcpClients := tcpClients s ++ [a]; called := called s |});;
  ret a.

Definition call (callback : Callback) : M t unit :=
  modify (fun s =>
    {| _tcp_callbacks := _tcp_callbacks s; tcpClients := tcpClients s;
       called := called s ++ [callback_id callback] |});;
  if callback_raises callback then raise CollaboratorError else ret tt.

(** [connectTCP]; the caller's [bindAddress] is not passed on. *)
Definition connectTCP (h : string) (p : Z) (f : nat) (to : Z)
    (bind_address : option (string * Z)) : M t Attempt :=
  let! conn := super_connectTCP h p f to None in
  let! s := get in
  (match _tcp_callbacks s !! (h, p) with
   | Some callback => call callback
   | None => ret tt
   end);;
  ret conn.

End Tcp.

(** ** The path of [make_request] *)

Module RequestPath.

Definition slash : Byte.byte := Byte.x2f.

Definition of_string (s : string) : bytes := String.list_byte_of_string s.

(** [b.startswith(prefix)] *)
Fixpoint startswith (b prefix : bytes) : bool :=
  match prefix, b with
  | [], _ => true
  | p :: prefix', c :: b' => Byte.eqb p c && startswith b' prefix'
  | _ :: _, [] => false
  end.

(** [b.replace(b"//", b"/")]: occurrences are replaced from the left and do
    not overlap. *)
Fixpoint replace_double_slash (b : bytes) : bytes :=
  match b with
  | [] => []
  | c :: rest =>
      match rest with
      | c' :: rest' =>
          if Byte.eqb c slash && Byte.eqb c' slash
          then slash :: replace_double_slash rest'
          else c :: replace_double_slash rest
      | [] => [c]
      end
  end.

(** The path that [make_request] hands to [requestReceived], for a path
    given as bytes. *)
Definition make_request_path (shorthand : bool) (path : bytes) : bytes :=
  (* Decorate it to be the full path, if we're using shorthand *)
  let path :=
    if shorthand
       && negb (startswith path (of_string "/_matrix"))
       && negb (startswith path (of_string "/_synapse"))
    then replace_double_slash (of_string "/_matrix/client/r0/" ++ path)
    else path in
  if negb (startswith path (of_string "/")) then slash :: path else path.

End RequestPath.

(** ** Sample rules module *)

Module SampleRules.

(** A module that allows an event exactly when the room has a create event
    in the state handed to it, and otherwise allows everything. *)
Definition needs_create : Rules.RulesModule :=
  {| Rules.mod_check_event_allowed := fun _ state_events =>
       ret (match state_events !! ("m.room.create", "") with
            | Some (Some _) => true
            | _ => false
            end);
     Rules.mod_on_create_room := fun _ _ _ => ret true;
     Rules.mod_check_threepid_can_be_invited := fun _ _ _ => ret true;
     Rules.mod_check_room_can_be_added_to_public_rooms_directory :=
       fun _ _ => ret true |}.

Definition create_event : Rules.EventBase :=
  {| Rules.event_id := "$c"; Rules.content := "{}" |}.

Definition store : Rules.DataStore :=
  {| Rules.events := {[ "$c" := create_event ]};
     Rules.current_state_ids := ∅;
     Rules.store_calls := [] |}.

Definition context : Rules.EventContext :=
  {| Rules.prev_state_ids :=
       [(("m.room.create", ""), "$c"); (("m.room.member", "@a:b"), "$gone")] |}.

End SampleRules.

(** ** Several jobs on the thread pool *)

(** The trace after the delayed call of job [j] has run on trace [tr]. *)
Definition job_trace (tr : list Event) (j : Job) : list Event :=
  let args := on_result_args (job_function j (tr ++ [EvDelayedCall])) in
  tr ++ [EvDelayedCall; EvFunction (job_id j);
         EvOnResult (job_id j) (fst args) (snd args)].

(** The delayed call that [callInThreadWithCallback] schedules at time
    [now]. *)
Definition job_call (now : Z) (j : Job) : Clock.DelayedCall Action :=
  {| Clock.getTime := now + 0; Clock.func := ADeferredCallback j |}.

(** * Properties *)

(** ** Preservation through the reactor loop and through test operations *)

Lemma preserves_ret {A} P (a : A) : preserves P (ret a).
Proof. intros w H. exact H. Qed.

Lemma preserves_raise {A} P e : preserves P (@raise World A e).
Proof. intros w H. exact H. Qed.

Lemma preserves_bind {A B} P (c : M World A) (k : A -> M World B) :
  preserves P c -> (forall a, preserves P (k a)) -> preserves P (bind c k).
Proof.
  intros Hc Hk w Hw. unfold bind.
  specialize (Hc w Hw). destruct (c w) as [w' [a|e|]]; simpl in *; auto.
  apply Hk. exact Hc.
Qed.

Lemma preserves_get P : preserves P get.
Proof. intros w H. exact H. Qed.

Lemma preserves_try {A} P (c : M World A) h :
  preserves P c -> (forall e, preserves P (h e)) -> preserves P (try_except c h).
Proof.
  intros Hc Hh w Hw. unfold try_except.
  specialize (Hc w Hw). destruct (c w) as [w' [a|e|]]; simpl in *; auto.
  apply Hh. exact Hc.
Qed.

Lemma preserves_when P (b : bool) (c : M World unit) :
  preserves P c -> preserves P (if b then c else ret tt).
Proof. intros Hc. destruct b; [exact Hc | apply preserves_ret]. Qed.

Section Stable.
Variable P : World -> Prop.
Hypothesis P_reactor : forall f, preserves P (modify (with_reactor f)).
Hypothesis P_delayed_call : preserves P (modify (record EvDelayedCall)).
Hypothesis P_flush : forall m, preserves P (flush m).
Hypothesis P_transport_produce : preserves P transport_produce.
Hypothesis P_channel_produce : preserves P channel_produce.
Hypothesis P_deferred_callback : forall j, preserves P (deferred_callback j).

Lemma preserves_fire a : preserves P (fire a).
Proof. destruct a; simpl; auto. Qed.

Lemma preserves_run_due fuel : preserves P (run_due fuel).
Proof.
  induction fuel as [|fuel IH]; intros w Hw; simpl;
    destruct (Clock.calls (reactor w)) as [|c rest]; auto;
    destruct (Clock.getTime c <=? Clock.rightNow (reactor w)); auto.
  apply (preserves_bind P); auto.
  intros _. apply preserves_bind; auto.
  intros _. apply preserves_bind; auto using preserves_fire.
Qed.

Lemma preserves_advance fuel amount : preserves P (advance fuel amount).
Proof.
  unfold advance. apply preserves_bind; auto.
  intros _. apply preserves_run_due.
Qed.

Hypothesis P_write : forall b, preserves P (write b).
Hypothesis P_loseConnection : forall r, preserves P (loseConnection r).
Hypothesis P_abortConnection : preserves P abortConnection.
Hypothesis P_pauseProducing : preserves P pauseProducing.
Hypothesis P_resumeProducing : preserves P resumeProducing.
Hypothesis P_registerProducer : forall p s, preserves P (registerProducer p s).
Hypothesis P_unregisterProducer : preserves P unregisterProducer.
Hypothesis P_channel_registerProducer :
  forall p s, preserves P (channel_registerProducer p s).
Hypothesis P_channel_unregisterProducer : preserves P channel_unregisterProducer.

Lemma preserves_writeSequence seq : preserves P (writeSequence seq).
Proof.
  induction seq as [|x seq IH]; simpl; [apply preserves_ret|].
  apply preserves_bind; auto.
Qed.

Lemma preserves_run_op o : preserves P (run_op o).
Proof.
  destruct o; simpl; auto using preserves_writeSequence, preserves_advance.
  unfold callInThreadWithCallback, callLater. auto.
Qed.

Lemma preserves_run_ops ops w : P w -> P (run_ops ops w).
Proof.
  revert w. induction ops as [|o ops IH]; intros w Hw; simpl; [exact Hw|].
  apply IH. apply preserves_run_op. exact Hw.
Qed.
End Stable.

(** ** Symbolic execution of the computations *)

Ltac unfold_m :=
  unfold loseConnection, abortConnection, pauseProducing, resumeProducing,
    unregisterProducer, transport_produce, registerProducer, write, flush,
    channel_produce, channel_registerProducer, channel_unregisterProducer,
    deferred_callback, callInThreadWithCallback, dataReceived, connectionLost,
    producer_resumeProducing, producer_pauseProducing, callLater,
    try_except, bind, get, modify, ret, raise in *.

Ltac case_inner x :=
  lazymatch x with
  | context [match ?y with _ => _ end] => case_inner y
  | _ => destruct x eqn:?
  end.

Ltac case_step :=
  match goal with
  | |- context [match ?x with _ => _ end] => case_inner x
  | H : context [match ?x with _ => _ end] |- _ => case_inner x
  end.

Ltac exec := unfold_m; simpl in *; repeat (case_step; simplify_eq/=).

(** ** Reading the trace *)

Lemma delivered_app tr1 tr2 : delivered (tr1 ++ tr2) = delivered tr1 ++ delivered tr2.
Proof. apply omap_app. Qed.

Lemma delivered_snoc tr e :
  delivered (tr ++ [e]) =
  delivered tr ++ match e with EvDataReceived d => [d] | _ => [] end.
Proof. rewrite delivered_app. destruct e; reflexivity. Qed.

Lemma received_bytes_snoc tr e :
  received_bytes (tr ++ [e]) =
  received_bytes tr ++ match e with EvDataReceived d => d | _ => [] end.
Proof.
  unfold received_bytes. rewrite delivered_snoc, concat_app.
  destruct e; simpl; rewrite ?app_nil_r; reflexivity.
Qed.

Lemma resumed_snoc tr e :
  resumed (tr ++ [e]) =
  resumed tr ++ match e with EvResumeProducing p => [p] | _ => [] end.
Proof. unfold resumed. rewrite omap_app. destruct e; reflexivity. Qed.

Lemma slice_to_from (b : bytes) (m : Z) :
  slice_to b m ++ slice_from b (length (slice_to b m)) = b.
Proof.
  unfold slice_to, slice_from.
  destruct (0 <=? m); rewrite length_take;
    match goal with
    | |- take ?k b ++ _ = _ =>
        destruct (Nat.le_gt_cases k (length b)) as [Hk|Hk];
        [ rewrite Nat.min_l by exact Hk; apply take_drop
        | rewrite Nat.min_r by lia;
          rewrite take_ge by lia; rewrite drop_all; apply app_nil_r ]
    end.
Qed.

(** ** Once [disconnecting] is set it stays set *)

Lemma disconnecting_stable ops w :
  is_disconnecting w -> is_disconnecting (run_ops ops w).
Proof.
  apply preserves_run_ops; unfold preserves, is_disconnecting; intros;
    exec; congruence.
Qed.

Lemma loseConnection_disconnecting reason w :
  is_disconnecting (fst (loseConnection reason w)).
Proof. unfold is_disconnecting. exec; try congruence; destruct (disconnecting (transport w)); simpl in *; congruence. Qed.

Lemma write_disconnecting byt w :
  is_disconnecting w ->
  write byt w = (w, Raise (Exception "Writing to disconnecting FakeTransport")).
Proof. unfold is_disconnecting. intros H. unfold write, bind, get. simpl. rewrite H. reflexivity. Qed.

Lemma writeSequence_disconnecting seq w :
  is_disconnecting w -> fst (writeSequence seq w) = w.
Proof.
  intros H. destruct seq as [|x seq]; [reflexivity|].
  simpl. unfold bind. rewrite write_disconnecting by exact H. reflexivity.
Qed.

Lemma run_ops_without_writes ops w :
  is_disconnecting w -> run_ops ops w = run_ops (without_writes ops) w.
Proof.
  revert w. induction ops as [|o ops IH]; intros w H; [reflexivity|].
  assert (Hnext : is_disconnecting (fst (run_op o w)))
    by exact (disconnecting_stable [o] w H).
  destruct o; simpl; try (apply IH; exact Hnext).
  - rewrite write_disconnecting by exact H. simpl. apply IH. exact H.
  - rewrite writeSequence_disconnecting by exact H. apply IH. exact H.
Qed.

(** ** After [loseConnection] only the buffer is drained *)

Lemma slice_to_prefix (b : bytes) m : slice_to b m `prefix_of` b.
Proof. unfold slice_to. destruct (0 <=? m); apply prefix_take. Qed.

Lemma drains_delivery held n w chunk rest :
  drains held n w ->
  chunk `prefix_of` buffer (transport w) ->
  rest `suffix_of` buffer (transport w) ->
  rest `suffix_of` held
  /\ (n <= length (delivered (trace w) ++ [chunk]))%nat
  /\ Forall (from_buffer held) (drop n (delivered (trace w) ++ [chunk])).
Proof.
  unfold drains. intros (Hg & Hs & Hn & Hf) Hc Hr. split; [|split].
  - etrans; [exact Hr | exact Hs].
  - rewrite length_app. simpl. lia.
  - rewrite drop_app_le by exact Hn. apply Forall_app. split; [exact Hf|].
    constructor; [|constructor]. exists (buffer (transport w)). auto.
Qed.

Ltac drains_tac :=
  unfold preserves, drains, is_disconnecting; intros;
  match goal with H : _ /\ _ |- _ => destruct H as (Hg & Hs & Hn & Hf) end;
  exec; rewrite ?delivered_snoc, ?app_nil_r; simpl;
  repeat split; try congruence; auto.

Lemma drains_flush held n maxbytes : preserves (drains held n) (flush maxbytes).
Proof.
  intros w Hw. pose proof Hw as Hw'. unfold drains in Hw'.
  destruct Hw' as (Hg & Hs & Hn & Hf). unfold is_disconnecting in Hg.
  unfold drains, is_disconnecting.
  exec; rewrite ?delivered_snoc; simpl; rewrite ?app_nil_r;
    try (split; [assumption|]);
    try (split; [assumption | split; assumption]);
    try (apply (drains_delivery held n w);
         [exact Hw | first [apply slice_to_prefix | reflexivity] | reflexivity]);
    try (apply (drains_delivery held n w);
         [exact Hw | first [apply slice_to_prefix | reflexivity]
         | apply suffix_drop]).
Qed.

Lemma drains_stable held n ops w : drains held n w -> drains held n (run_ops ops w).
Proof.
  apply preserves_run_ops; try (intros; apply drains_flush); drains_tac.
Qed.

(** C2: once [loseConnection] has been called, whatever the test does next,
    a [write] raises the invalid-state exception and leaves the world as it
    was; the world reached is the one that the same operations without
    their writes reach; and every byte string handed to the peer's
    [dataReceived] after [loseConnection] was cut from the buffer as it
    stood when [loseConnection] returned.  So none of the bytes written
    after [loseConnection] reach the buffer or the peer. *)
Theorem write_after_loseConnection reason ops byt w :
  let w1 := fst (loseConnection reason w) in
  let w2 := run_ops ops w1 in
  write byt w2 = (w2, Raise (Exception "Writing to disconnecting FakeTransport"))
  /\ w2 = run_ops (without_writes ops) w1
  /\ Forall (from_buffer (buffer (transport w1)))
       (drop (length (delivered (trace w1))) (delivered (trace w2))).
Proof.
  intros w1 w2.
  assert (H1 : is_disconnecting w1) by apply loseConnection_disconnecting.
  split; [|split].
  - apply write_disconnecting. apply disconnecting_stable. exact H1.
  - apply run_ops_without_writes. exact H1.
  - assert (H0 : drains (buffer (transport w1)) (length (delivered (trace w1))) w1).
    { split; [exact H1|]. split; [reflexivity|]. split; [reflexivity|].
      rewrite drop_all. constructor. }
    exact (proj2 (proj2 (proj2 (drains_stable _ _ ops w1 H0)))).
Qed.

(** ** Abrupt close *)

Lemma closed_with_stable chunks ops w :
  closed_with chunks w -> closed_with chunks (run_ops ops w).
Proof.
  apply preserves_run_ops; unfold preserves, closed_with; intros;
    exec; rewrite ?delivered_snoc, ?app_nil_r; simpl;
    intuition congruence.
Qed.

(** C4: when [abortConnection] returns, [disconnected] is set, although the
    buffer is as full as before and nothing was delivered or scheduled by
    the call; calling it again changes nothing and notifies nobody; and
    whatever the test does afterwards, the peer's [dataReceived] is never
    called again, so what was buffered stays undelivered. *)
Theorem abortConnection_discards w w1 :
  abortConnection w = (w1, Return tt) ->
  disconnected (transport w1) = true
  /\ buffer (transport w1) = buffer (transport w)
  /\ delivered (trace w1) = delivered (trace w)
  /\ reactor w1 = reactor w
  /\ abortConnection w1 = (w1, Return tt)
  /\ forall ops,
       delivered (trace (run_ops ops w1)) = delivered (trace w1)
       /\ disconnected (transport (run_ops ops w1)) = true.
Proof.
  intros H.
  assert (Hd : disconnected (transport w1) = true /\
               disconnecting (transport w1) = true).
  { revert H. exec; intros; simplify_eq/=; auto.
    split; [reflexivity|]. apply negb_false_iff. assumption. }
  destruct Hd as [Hd Hg].
  split; [exact Hd|]. split; [|split; [|split; [|split]]].
  - revert H. exec; intros; simplify_eq/=; reflexivity.
  - revert H. exec; intros; simplify_eq/=;
      rewrite ?delivered_snoc, ?app_nil_r; reflexivity.
  - revert H. exec; intros; simplify_eq/=; reflexivity.
  - unfold abortConnection, bind, get, modify. simpl. rewrite Hg. simpl.
    destruct w1 as [r t c tr]. destruct t. simpl in *. subst. reflexivity.
  - intros ops.
    destruct (closed_with_stable (delivered (trace w1)) ops w1) as [H1 H2];
      [split; [exact Hd | reflexivity]|].
    split; [exact H2 | exact H1].
Qed.

(** ** Delivery *)

Lemma flush_returns maxbytes w : snd (flush maxbytes w) = Return tt.
Proof. exec; reflexivity. Qed.

(** C5: [flush] never raises, whatever the peer does; and when the peer's
    [dataReceived] raises on the bytes handed to it, the transport is
    exactly as before the attempt (buffer, [disconnecting], [disconnected]
    and every other attribute), nothing was scheduled, and the only mark
    left is the attempted call itself. *)
Theorem flush_survives_peer_exception maxbytes w :
  snd (flush maxbytes w) = Return tt
  /\ (truthy (buffer (transport w)) = true ->
      disconnected (transport w) = false ->
      transport_attr (other (transport w)) = true ->
      dataReceived_raises (other (transport w)) (trace w) (to_write maxbytes w) = true ->
      let w' := fst (flush maxbytes w) in
      buffer (transport w') = buffer (transport w)
      /\ disconnecting (transport w') = disconnecting (transport w)
      /\ disconnected (transport w') = disconnected (transport w)
      /\ transport w' = transport w
      /\ reactor w' = reactor w
      /\ trace w' = trace w ++ [EvDataReceived (to_write maxbytes w)]).
Proof.
  split; [apply flush_returns|].
  intros Hb Hd Ha Hr. unfold to_write in *.
  unfold_m. simpl.
  rewrite Hb, Hd, Ha. simpl. rewrite Hr. simpl. auto 10.
Qed.

(** C6, as amended: towards a peer whose [transport] is [None], a flush of
    a non-empty buffer on a transport that is not disconnected calls nobody
    and keeps the buffer; it puts itself back on the queue, due at the
    current time, when [autoflush] is set, and leaves the queue alone when
    it is not. *)
Theorem flush_without_peer_transport maxbytes w :
  truthy (buffer (transport w)) = true ->
  disconnected (transport w) = false ->
  transport_attr (other (transport w)) = false ->
  let w' := fst (flush maxbytes w) in
  snd (flush maxbytes w) = Return tt
  /\ trace w' = trace w
  /\ transport w' = transport w
  /\ Clock.rightNow (reactor w') = Clock.rightNow (reactor w)
  /\ Clock.calls (reactor w') =
     if autoflush (transport w) then
       Clock.schedule {| Clock.getTime := Clock.rightNow (reactor w) + 0;
                         Clock.func := AFlush |}
         (Clock.calls (reactor w))
     else Clock.calls (reactor w).
Proof.
  intros Hb Hd Ha.
  unfold flush, bind, get, callLater, modify, ret. simpl.
  rewrite Hb, Hd, Ha. simpl.
  destruct (autoflush (transport w)); simpl; auto.
Qed.

Lemma flush_without_peer_transport_witness :
  let w := Sample.new_world (Sample.new_transport Sample.unattached true Sample.ping) in
  trace (fst (flush None w)) = []
  /\ Clock.calls (reactor (fst (flush None w))) =
     [{| Clock.getTime := 0; Clock.func := AFlush |}].
Proof.
  pose proof (flush_without_peer_transport None
    (Sample.new_world (Sample.new_transport Sample.unattached true Sample.ping))
    eq_refl eq_refl eq_refl) as H.
  simpl in H. destruct H as (_ & Ht & _ & _ & Hc).
  split; [exact Ht | exact Hc].
Defined.

(** C6, as the specification states it, fails on a transport built with
    [autoflush=False]: the buffer is kept but no flush is scheduled. *)
Lemma flush_without_autoflush_not_rescheduled :
  ~ flush_always_reschedules None
      (Sample.new_world (Sample.new_transport Sample.unattached false Sample.ping)).
Proof.
  intros H. destruct (H eq_refl eq_refl eq_refl) as (_ & _ & Hc).
  vm_compute in Hc. discriminate Hc.
Qed.

(** ** Reassembly *)

Ltac split_andb :=
  repeat match goal with
         | H : _ && _ = true |- _ => apply andb_true_iff in H as [? ?]
         end.

Ltac carries_tac :=
  unfold preserves, carries; intros ? (Hg & Hd & Ha & Hr & Hall);
  exec; split_andb; rewrite ?received_bytes_snoc, ?app_nil_r; simpl;
  repeat split; try congruence; auto.

Lemma drop_own_length (b : bytes) : slice_from b (length b) = [].
Proof. apply drop_all. Qed.

Lemma carries_flush all maxbytes : preserves (carries all) (flush maxbytes).
Proof.
  carries_tac;
    try (rewrite Hr in *; discriminate);
    try (rewrite <- app_assoc, slice_to_from; reflexivity);
    try (rewrite drop_own_length, app_nil_r; reflexivity).
Qed.

Lemma carries_advance all fuel amount : preserves (carries all) (advance fuel amount).
Proof.
  apply preserves_advance; try (intros; apply carries_flush); intros; carries_tac.
Qed.

Lemma write_returns byt w :
  disconnecting (transport w) = false -> snd (write byt w) = Return tt.
Proof. intros H. exec; congruence. Qed.

Lemma carries_write all byt w :
  carries all w -> carries (all ++ byt) (fst (write byt w)).
Proof.
  unfold carries. intros (Hg & Hd & Ha & Hr & Hall).
  exec; repeat split; try congruence; auto;
    rewrite app_assoc; congruence.
Qed.

Lemma carries_writeSequence seq all w :
  carries all w -> carries (all ++ concat seq) (fst (writeSequence seq w)).
Proof.
  revert all w. induction seq as [|x seq IH]; intros all w H; simpl.
  - rewrite app_nil_r. exact H.
  - unfold bind. pose proof (carries_write all x w H) as Hx.
    pose proof (write_returns x w (proj1 H)) as Hs.
    destruct (write x w) as [w1 o]; simpl in *; subst o.
    rewrite app_assoc. apply IH. exact Hx.
Qed.

Lemma carries_run_ops ops all w :
  forallb is_io ops = true ->
  carries all w -> carries (all ++ written ops) (run_ops ops w).
Proof.
  revert all w. induction ops as [|o ops IH]; intros all w Hio H; simpl.
  - rewrite app_nil_r. exact H.
  - simpl in Hio. apply andb_true_iff in Hio as [Ho Hio].
    destruct o; try discriminate Ho; simpl.
    + rewrite app_assoc. apply IH; [exact Hio|]. apply carries_write. exact H.
    + rewrite app_assoc. apply IH; [exact Hio|]. apply carries_writeSequence. exact H.
    + apply IH; [exact Hio|]. apply carries_flush. exact H.
    + apply IH; [exact Hio|]. apply carries_advance. exact H.
Qed.

Lemma carries_final_flush all w :
  carries all w ->
  received_bytes (trace (fst (flush None w))) = all
  /\ buffer (transport (fst (flush None w))) = [].
Proof.
  unfold carries. intros (Hg & Hd & Ha & Hr & Hall).
  exec; rewrite ?received_bytes_snoc, ?drop_own_length; simpl;
    try (rewrite Hr in *; discriminate);
    try (rewrite Ha in *; discriminate); try congruence; auto.
  all: destruct (buffer (transport w)); simpl in *; try discriminate;
    rewrite ?app_nil_r in *; auto.
Qed.

(** C1: on a connected transport with nothing buffered or delivered yet,
    whose peer has its transport and never raises from [dataReceived], take
    any sequence of writes, flushes with any [maxbytes] (negative and zero
    included) and turns of the reactor.  At every point the bytes handed to
    [dataReceived], followed by the bytes still buffered, are the written
    bytes in call order; so once the buffer is empty the peer has received
    exactly what was written, and one unbounded flush always empties it. *)
Theorem reassembly ops w :
  disconnecting (transport w) = false ->
  disconnected (transport w) = false ->
  transport_attr (other (transport w)) = true ->
  (forall h b, dataReceived_raises (other (transport w)) h b = false) ->
  buffer (transport w) = [] ->
  delivered (trace w) = [] ->
  forallb is_io ops = true ->
  let w' := run_ops ops w in
  received_bytes (trace w') ++ buffer (transport w') = written ops
  /\ (buffer (transport w') = [] -> received_bytes (trace w') = written ops)
  /\ received_bytes (trace (fst (flush None w'))) = written ops
  /\ buffer (transport (fst (flush None w'))) = [].
Proof.
  intros Hg Hd Ha Hr Hb Ht Hio w'.
  assert (H0 : carries [] w).
  { unfold carries, received_bytes. rewrite Hb, Ht. auto. }
  pose proof (carries_run_ops ops [] w Hio H0) as H. simpl in H. fold w' in H.
  split; [exact (proj2 (proj2 (proj2 (proj2 H))))|]. split.
  - intros He. destruct H as (_ & _ & _ & _ & H). rewrite He, app_nil_r in H. exact H.
  - apply carries_final_flush. exact H.
Qed.

Lemma reassembly_witness :
  let ops := [OpWrite Sample.ping; OpFlush (Some 3); OpWrite Sample.pong;
              OpFlush (Some (-1)); OpFlush (Some 0); OpAdvance 5 1] in
  received_bytes (trace (run_ops ops Sample.connected_world))
  = Sample.ping ++ Sample.pong.
Proof.
  intros ops.
  pose proof (reassembly ops Sample.connected_world eq_refl eq_refl eq_refl
                (fun _ _ => eq_refl) eq_refl eq_refl eq_refl) as H.
  simpl in H. destruct H as (_ & H & _). apply H. reflexivity.
Defined.

Lemma abortConnection_discards_witness :
  let w := Sample.new_world (Sample.new_transport Sample.attached true Sample.ping) in
  disconnected (transport (fst (abortConnection w))) = true
  /\ delivered (trace (run_ops [OpFlush None; OpAdvance 5 1]
                         (fst (abortConnection w)))) = [].
Proof.
  intros w.
  pose proof (abortConnection_discards w (fst (abortConnection w)) eq_refl) as H.
  destruct H as (Hd & _ & _ & _ & _ & Hops).
  split; [exact Hd|]. exact (proj1 (Hops [OpFlush None; OpAdvance 5 1])).
Defined.

Lemma flush_survives_peer_exception_witness :
  let w := Sample.new_world (Sample.new_transport Sample.broken true Sample.ping) in
  snd (flush (Some 2) w) = Return tt
  /\ transport (fst (flush (Some 2) w)) = transport w.
Proof.
  intros w.
  pose proof (flush_survives_peer_exception (Some 2) w) as [Hret H].
  split; [exact Hret|].
  destruct (H eq_refl eq_refl eq_refl eq_refl) as (_ & _ & _ & Ht & _).
  exact Ht.
Defined.

(** ** The loop of [advance] on simple queues *)

Lemma run_due_nil fuel w :
  Clock.calls (reactor w) = [] -> run_due fuel w = (w, Return tt).
Proof. intros H. destruct fuel; simpl; rewrite H; reflexivity. Qed.

Lemma run_due_later fuel w c rest :
  Clock.calls (reactor w) = c :: rest ->
  Clock.rightNow (reactor w) < Clock.getTime c ->
  run_due fuel w = (w, Return tt).
Proof.
  intros H Hlt. apply Z.leb_gt in Hlt.
  destruct fuel; simpl; rewrite H, Hlt; reflexivity.
Qed.

Lemma run_due_now fuel w c rest :
  Clock.calls (reactor w) = c :: rest ->
  Clock.getTime c <= Clock.rightNow (reactor w) ->
  run_due (S fuel) w =
  (modify (with_reactor (Clock.set_calls rest));;
   modify (record EvDelayedCall);;
   fire (Clock.func c);;
   run_due fuel) w.
Proof.
  intros H Hle. apply Z.leb_le in Hle.
  simpl. rewrite H, Hle. reflexivity.
Qed.

(** ** The thread pool *)

(** C3, as amended: the submit call itself runs nothing and schedules one
    call at delay 0.  When the reactor next runs what is due, that one call
    runs the function and then, in the same call, hands [onResult] the pair
    [(True, result)] or [(False, failure)], exactly once; no second call is
    ever scheduled, and the queue is empty afterwards. *)
Theorem callInThreadWithCallback_notifies j w fuel amount :
  Clock.calls (reactor w) = [] ->
  (0 < fuel)%nat ->
  0 <= amount ->
  let w1 := fst (callInThreadWithCallback j w) in
  let w2 := fst (advance fuel amount w1) in
  let args := on_result_args (job_function j (trace w ++ [EvDelayedCall])) in
  let added := [EvDelayedCall; EvFunction (job_id j);
                EvOnResult (job_id j) (fst args) (snd args)] in
  trace w1 = trace w
  /\ Clock.calls (reactor w1) =
     [{| Clock.getTime := Clock.rightNow (reactor w) + 0;
         Clock.func := ADeferredCallback j |}]
  /\ snd (advance fuel amount w1) = Return tt
  /\ trace w2 = trace w ++ added
  /\ on_results (job_id j) added = [args]
  /\ hop_of (is_function (job_id j)) 0 added = Some 1%nat
  /\ hop_of (is_on_result (job_id j)) 0 added = Some 1%nat
  /\ Clock.calls (reactor w2) = [].
Proof.
  intros Hq Hfuel Hamount w1 w2 args added.
  destruct fuel as [|fuel]; [lia|].
  assert (Hadv : advance (S fuel) amount w1 =
    (record (EvOnResult (job_id j) (fst args) (snd args))
       (record (EvFunction (job_id j))
          (record EvDelayedCall
             (with_reactor (Clock.set_calls [])
                (with_reactor (Clock.tick amount) w1)))), Return tt)).
  { unfold advance, bind at 1, modify at 1.
    erewrite run_due_now with (c := {| Clock.getTime := Clock.rightNow (reactor w) + 0;
                                       Clock.func := ADeferredCallback j |}) (rest := []).
    - unfold w1, args. simpl fire. unfold_m. simpl.
      destruct (job_function j (trace w ++ [EvDelayedCall])); simpl;
        apply run_due_nil; reflexivity.
    - unfold w1. unfold_m. simpl. rewrite Hq. reflexivity.
    - unfold w1. unfold_m. simpl. lia. }
  unfold w2. rewrite Hadv. simpl.
  repeat split.
  - unfold w1. unfold_m. simpl. rewrite Hq. reflexivity.
  - rewrite <- !app_assoc. reflexivity.
  - unfold on_results. simpl. rewrite Nat.eqb_refl. destruct args; reflexivity.
  - simpl. rewrite Nat.eqb_refl. reflexivity.
  - simpl. rewrite Nat.eqb_refl. reflexivity.
Qed.

Lemma callInThreadWithCallback_notifies_witness :
  trace (fst (advance 3 0 (fst (callInThreadWithCallback Sample.failing_job
                                  Sample.connected_world))))
  = [EvDelayedCall; EvFunction 2; EvOnResult 2 false "boom"].
Proof.
  pose proof (callInThreadWithCallback_notifies Sample.failing_job
                Sample.connected_world 3 0 eq_refl) as H.
  destruct H as (_ & _ & _ & H & _); [lia | lia |]. exact H.
Defined.

(** C3, as the specification states it, fails: [onResult] belongs to the
    same delayed call as the function, not to the next one. *)
Lemma onResult_not_in_second_hop :
  ~ two_hop_notification Sample.query_job Sample.connected_world.
Proof.
  intros [n [H1 H2]]. vm_compute in H1, H2. congruence.
Qed.

(** ** Producers *)

Lemma channel_pump_advance p w fuel d :
  channel_pumping p w -> (0 < fuel)%nat -> 1 <= d ->
  channel_pumping p (fst (advance fuel d w))
  /\ resumed (trace (fst (advance fuel d w))) = resumed (trace w) ++ [producer_id p].
Proof.
  intros (Hp & due & Hdue & Hq) Hfuel Hd.
  destruct fuel as [|fuel]; [lia|].
  remember (advance (S fuel) d w) as r eqn:Hr.
  unfold advance, bind at 1, modify at 1 in Hr.
  erewrite run_due_now in Hr by (simpl; first [exact Hq | lia]).
  simpl fire in Hr. unfold_m. simpl in Hr. rewrite Hp in Hr. simpl in Hr.
  erewrite run_due_later in Hr by (simpl; first [reflexivity | lia]).
  subst r. simpl. split.
  - split; [exact Hp|]. eexists. split; [|reflexivity]. simpl. lia.
  - rewrite !resumed_snoc. simpl. rewrite app_nil_r. reflexivity.
Qed.

Lemma channel_pump_run p fuel amounts w :
  channel_pumping p w -> (0 < fuel)%nat -> Forall (fun d => 1 <= d) amounts ->
  channel_pumping p (run_ops (advances fuel amounts) w)
  /\ resumed (trace (run_ops (advances fuel amounts) w)) =
     resumed (trace w) ++ replicate (length amounts) (producer_id p).
Proof.
  intros Hw Hfuel Ha. revert w Hw.
  induction Ha as [|d amounts Hd Ha IH]; intros w Hw; simpl.
  - rewrite app_nil_r. auto.
  - destruct (channel_pump_advance p w fuel d Hw Hfuel Hd) as [H1 H2].
    destruct (IH _ H1) as [H3 H4]. split; [exact H3|].
    rewrite H4, H2, <- app_assoc. reflexivity.
Qed.

Lemma transport_pump_advance p w fuel d :
  (forall h, resume_result p h = FiredDeferred) ->
  transport_pumping p w -> (0 < fuel)%nat -> 1 <= d ->
  transport_pumping p (fst (advance fuel d w))
  /\ resumed (trace (fst (advance fuel d w))) = resumed (trace w) ++ [producer_id p].
Proof.
  intros Hfired (Hp & due & Hdue & Hq) Hfuel Hd.
  destruct fuel as [|fuel]; [lia|].
  remember (advance (S fuel) d w) as r eqn:Hr.
  unfold advance, bind at 1, modify at 1 in Hr.
  erewrite run_due_now in Hr by (simpl; first [exact Hq | lia]).
  simpl fire in Hr. unfold_m. simpl in Hr. rewrite Hp in Hr. simpl in Hr.
  rewrite Hfired in Hr. simpl in Hr.
  erewrite run_due_later in Hr by (simpl; first [reflexivity | lia]).
  subst r. simpl. split.
  - split; [exact Hp|]. eexists. split; [|reflexivity]. simpl. lia.
  - rewrite !resumed_snoc. simpl. rewrite app_nil_r. reflexivity.
Qed.

Lemma transport_pump_run p fuel amounts w :
  (forall h, resume_result p h = FiredDeferred) ->
  transport_pumping p w -> (0 < fuel)%nat -> Forall (fun d => 1 <= d) amounts ->
  transport_pumping p (run_ops (advances fuel amounts) w)
  /\ resumed (trace (run_ops (advances fuel amounts) w)) =
     resumed (trace w) ++ replicate (length amounts) (producer_id p).
Proof.
  intros Hfired Hw Hfuel Ha. revert w Hw.
  induction Ha as [|d amounts Hd Ha IH]; intros w Hw; simpl.
  - rewrite app_nil_r. auto.
  - destruct (transport_pump_advance p w fuel d Hfired Hw Hfuel Hd) as [H1 H2].
    destruct (IH _ H1) as [H3 H4]. split; [exact H3|].
    rewrite H4, H2, <- app_assoc. reflexivity.
Qed.

(** Without a producer the pumps that are still queued call nobody. *)
Lemma channel_idle_run_due fuel w :
  channel_idle w ->
  channel_idle (fst (run_due fuel w))
  /\ resumed (trace (fst (run_due fuel w))) = resumed (trace w).
Proof.
  revert w. induction fuel as [|fuel IH]; intros w Hw.
  - assert (E : fst (run_due 0 w) = w).
    { simpl. destruct (Clock.calls (reactor w)) as [|c rest]; [reflexivity|].
      destruct (Clock.getTime c <=? Clock.rightNow (reactor w)); reflexivity. }
    rewrite E. auto.
  - destruct Hw as (Hp & Hq).
    destruct (Clock.calls (reactor w)) as [|c rest] eqn:Hc.
    { rewrite run_due_nil by exact Hc. simpl. unfold channel_idle. rewrite Hc. auto. }
    destruct (Z.le_gt_cases (Clock.getTime c) (Clock.rightNow (reactor w))) as [Hle|Hgt].
    2: { erewrite run_due_later by (first [exact Hc | lia]). simpl.
         unfold channel_idle. rewrite Hc. auto. }
    inversion Hq as [|? ? Hf Hrest]; subst.
    assert (E : run_due (S fuel) w =
                run_due fuel
                  (record EvDelayedCall (with_reactor (Clock.set_calls rest) w))).
    { erewrite run_due_now by (first [exact Hc | exact Hle]).
      rewrite Hf. simpl fire. unfold_m. simpl. rewrite Hp. reflexivity. }
    rewrite E.
    destruct (IH (record EvDelayedCall (with_reactor (Clock.set_calls rest) w)))
      as [H1 H2]; [split; [exact Hp | exact Hrest]|].
    split; [exact H1|]. rewrite H2. simpl. rewrite resumed_snoc. simpl.
    apply app_nil_r.
Qed.

Lemma transport_idle_run_due fuel w :
  transport_idle w ->
  transport_idle (fst (run_due fuel w))
  /\ resumed (trace (fst (run_due fuel w))) = resumed (trace w).
Proof.
  intros Hw. destruct fuel as [|fuel].
  - assert (E : fst (run_due 0 w) = w).
    { simpl. destruct (Clock.calls (reactor w)) as [|c rest]; [reflexivity|].
      destruct (Clock.getTime c <=? Clock.rightNow (reactor w)); reflexivity. }
    rewrite E. auto.
  - destruct Hw as (Hp & Hq).
    destruct (Clock.calls (reactor w)) as [|c rest] eqn:Hc.
    { rewrite run_due_nil by exact Hc. simpl. unfold transport_idle. rewrite Hc. auto. }
    destruct (Z.le_gt_cases (Clock.getTime c) (Clock.rightNow (reactor w))) as [Hle|Hgt].
    2: { erewrite run_due_later by (first [exact Hc | lia]). simpl.
         unfold transport_idle. rewrite Hc. auto. }
    inversion Hq as [|? ? Hf Hrest]; subst.
    assert (E : fst (run_due (S fuel) w) =
                record EvDelayedCall (with_reactor (Clock.set_calls rest) w)).
    { erewrite run_due_now by (first [exact Hc | exact Hle]).
      rewrite Hf. simpl fire. unfold_m. simpl. rewrite Hp. reflexivity. }
    rewrite E. split; [split; [exact Hp | exact Hrest]|].
    simpl. rewrite resumed_snoc. simpl. apply app_nil_r.
Qed.

Lemma channel_idle_run fuel amounts w :
  channel_idle w ->
  channel_idle (run_ops (advances fuel amounts) w)
  /\ resumed (trace (run_ops (advances fuel amounts) w)) = resumed (trace w).
Proof.
  revert w. induction amounts as [|d amounts IH]; intros w Hw; simpl; [auto|].
  change (fst (advance fuel d w))
    with (fst (run_due fuel (with_reactor (Clock.tick d) w))).
  destruct (channel_idle_run_due fuel (with_reactor (Clock.tick d) w)) as [H1 H2];
    [exact Hw|].
  destruct (IH _ H1) as [H3 H4]. split; [exact H3|].
  rewrite H4, H2. reflexivity.
Qed.

Lemma transport_idle_run fuel amounts w :
  transport_idle w ->
  transport_idle (run_ops (advances fuel amounts) w)
  /\ resumed (trace (run_ops (advances fuel amounts) w)) = resumed (trace w).
Proof.
  revert w. induction amounts as [|d amounts IH]; intros w Hw; simpl; [auto|].
  change (fst (advance fuel d w))
    with (fst (run_due fuel (with_reactor (Clock.tick d) w))).
  destruct (transport_idle_run_due fuel (with_reactor (Clock.tick d) w)) as [H1 H2];
    [exact Hw|].
  destruct (IH _ H1) as [H3 H4]. split; [exact H3|].
  rewrite H4, H2. reflexivity.
Qed.

Lemma empty_queue_run fuel amounts w :
  Clock.calls (reactor w) = [] ->
  Clock.calls (reactor (run_ops (advances fuel amounts) w)) = []
  /\ trace (run_ops (advances fuel amounts) w) = trace w
  /\ transport (run_ops (advances fuel amounts) w) = transport w
  /\ channel (run_ops (advances fuel amounts) w) = channel w.
Proof.
  revert w. induction amounts as [|d amounts IH]; intros w Hw; simpl; [auto|].
  change (fst (advance fuel d w))
    with (fst (run_due fuel (with_reactor (Clock.tick d) w))).
  rewrite run_due_nil by exact Hw. simpl.
  destruct (IH (with_reactor (Clock.tick d) w) Hw) as (H1 & H2 & H3 & H4). auto.
Qed.

Lemma channel_registerProducer_pumping p w :
  Clock.calls (reactor w) = [] ->
  channel_pumping p (fst (channel_registerProducer p false w))
  /\ trace (fst (channel_registerProducer p false w)) = trace w
  /\ Clock.calls (reactor (fst (channel_registerProducer p false w))) =
     [{| Clock.getTime := Clock.rightNow (reactor w) + 0;
         Clock.func := AChannelProduce |}].
Proof.
  intros Hq. unfold channel_pumping. unfold_m. simpl. rewrite Hq. simpl.
  repeat split. eexists. split; [|reflexivity]. lia.
Qed.

Lemma registerProducer_pumping p w :
  Clock.calls (reactor w) = [] ->
  transport_pumping p (fst (registerProducer p false w))
  /\ trace (fst (registerProducer p false w)) = trace w
  /\ Clock.calls (reactor (fst (registerProducer p false w))) =
     [{| Clock.getTime := Clock.rightNow (reactor w) + 0;
         Clock.func := ATransportProduce |}].
Proof.
  intros Hq. unfold transport_pumping. unfold_m. simpl. rewrite Hq. simpl.
  repeat split. eexists. split; [|reflexivity]. lia.
Qed.

Lemma channel_unregisterProducer_idle p w :
  channel_pumping p w ->
  channel_idle (fst (channel_unregisterProducer w))
  /\ trace (fst (channel_unregisterProducer w)) = trace w.
Proof.
  intros (Hp & due & _ & Hq). unfold channel_idle. unfold_m. simpl.
  rewrite Hp. simpl. rewrite Hq. repeat split. repeat constructor.
Qed.

Lemma unregisterProducer_idle p w :
  transport_pumping p w ->
  transport_idle (fst (unregisterProducer w))
  /\ trace (fst (unregisterProducer w)) = trace w.
Proof.
  intros (Hp & due & _ & Hq). unfold transport_idle. unfold_m. simpl.
  rewrite Hp. simpl. rewrite Hq. repeat split. repeat constructor.
Qed.

(** C7, as amended.  Registration of a non-streaming producer schedules a
    first pump at delay 0.  A pump that runs while the producer is
    registered calls [resumeProducing] once and schedules the next pump a
    tenth after the time at which it ran (on [FakeTransport]: when the
    returned Deferred has fired already), so that every step of the clock of
    at least a tenth, the step [advance(0.1)] of [wait_until_result]
    included, makes exactly one call of [resumeProducing].  After
    [unregisterProducer] no step of the clock makes another call.  A
    streaming producer is stored, nothing is scheduled for it, and no step
    of the clock calls it. *)
Theorem producer_pumping p w fuel amounts later :
  Clock.calls (reactor w) = [] ->
  (0 < fuel)%nat ->
  Forall (fun d => 1 <= d) amounts ->
  (let w1 := fst (channel_registerProducer p false w) in
   let w2 := run_ops (advances fuel amounts) w1 in
   let w3 := fst (channel_unregisterProducer w2) in
   Clock.calls (reactor w1) =
     [{| Clock.getTime := Clock.rightNow (reactor w) + 0;
         Clock.func := AChannelProduce |}]
   /\ resumed (trace w2) =
      resumed (trace w) ++ replicate (length amounts) (producer_id p)
   /\ resumed (trace (run_ops (advances fuel later) w3)) = resumed (trace w2))
  /\ ((forall h, resume_result p h = FiredDeferred) ->
      let w1 := fst (registerProducer p false w) in
      let w2 := run_ops (advances fuel amounts) w1 in
      let w3 := fst (unregisterProducer w2) in
      Clock.calls (reactor w1) =
        [{| Clock.getTime := Clock.rightNow (reactor w) + 0;
            Clock.func := ATransportProduce |}]
      /\ resumed (trace w2) =
         resumed (trace w) ++ replicate (length amounts) (producer_id p)
      /\ resumed (trace (run_ops (advances fuel later) w3)) = resumed (trace w2))
  /\ (let w1 := fst (channel_registerProducer p true w) in
      _producer (channel w1) = Some p
      /\ Clock.calls (reactor w1) = []
      /\ resumed (trace (run_ops (advances fuel later) w1)) = resumed (trace w))
  /\ (let w1 := fst (registerProducer p true w) in
      producer (transport w1) = Some p
      /\ Clock.calls (reactor w1) = []
      /\ resumed (trace (run_ops (advances fuel later) w1)) = resumed (trace w)).
Proof.
  intros Hq Hfuel Ha. split; [|split; [|split]].
  - intros w1 w2 w3.
    destruct (channel_registerProducer_pumping p w Hq) as (H1 & Ht1 & Hc1).
    destruct (channel_pump_run p fuel amounts _ H1 Hfuel Ha) as (H2 & Hr2).
    destruct (channel_unregisterProducer_idle p _ H2) as (H3 & Ht3).
    destruct (channel_idle_run fuel later _ H3) as (_ & Hr4).
    split; [exact Hc1|]. split.
    + unfold w2, w1. rewrite Hr2, Ht1. reflexivity.
    + unfold w3, w2, w1. rewrite Hr4, Ht3. reflexivity.
  - intros Hfired w1 w2 w3.
    destruct (registerProducer_pumping p w Hq) as (H1 & Ht1 & Hc1).
    destruct (transport_pump_run p fuel amounts _ Hfired H1 Hfuel Ha) as (H2 & Hr2).
    destruct (unregisterProducer_idle p _ H2) as (H3 & Ht3).
    destruct (transport_idle_run fuel later _ H3) as (_ & Hr4).
    split; [exact Hc1|]. split.
    + unfold w2, w1. rewrite Hr2, Ht1. reflexivity.
    + unfold w3, w2, w1. rewrite Hr4, Ht3. reflexivity.
  - intros w1.
    assert (Hc : Clock.calls (reactor w1) = []) by exact Hq.
    split; [reflexivity|]. split; [exact Hc|].
    destruct (empty_queue_run fuel later w1 Hc) as (_ & Ht & _). rewrite Ht.
    reflexivity.
  - intros w1.
    assert (Hc : Clock.calls (reactor w1) = []) by exact Hq.
    split; [reflexivity|]. split; [exact Hc|].
    destruct (empty_queue_run fuel later w1 Hc) as (_ & Ht & _). rewrite Ht.
    reflexivity.
Qed.

Lemma producer_pumping_witness :
  resumed (trace (run_ops (advances 2 [1; 1; 1])
                    (fst (registerProducer Sample.deferred_producer false
                            Sample.connected_world))))
  = [7; 7; 7]%nat.
Proof.
  pose proof (producer_pumping Sample.deferred_producer Sample.connected_world
                2 [1; 1; 1] [] eq_refl) as H.
  destruct H as (_ & H & _); [lia | repeat constructor; lia |].
  destruct (H (fun _ => eq_refl)) as (_ & Hr & _). exact Hr.
Defined.

(** C7, as the specification states it, fails: one step of the clock over
    ten tenths calls [resumeProducing] once, not ten times, because the pump
    that runs in that step schedules its successor a tenth after the new
    time. *)
Lemma one_pump_per_advance :
  ~ pumped_every_tenth (registerProducer Sample.deferred_producer false)
      Sample.connected_world.
Proof.
  intros H. specialize (H 10%nat). vm_compute in H. lia.
Qed.

(** The same on [FakeChannel]. *)
Lemma channel_one_pump_per_advance :
  ~ pumped_every_tenth (channel_registerProducer Sample.deferred_producer false)
      Sample.connected_world.
Proof.
  intros H. specialize (H 10%nat). vm_compute in H. lia.
Qed.

(** While the Deferred handed back by [resumeProducing] has not fired the
    transport schedules no further pump, however time is stepped. *)
Lemma pending_deferred_stalls_pump :
  resumed (trace (run_ops (advances 2 [1; 1; 1; 1; 1])
                    (fst (registerProducer Sample.waiting_producer false
                            Sample.connected_world))))
  = [8]%nat.
Proof. reflexivity. Qed.

(** [FakeTransport]'s pump has no test for a producer that is gone, where
    [FakeChannel]'s has one: the pump left on the queue raises from
    [advance]. *)
Lemma transport_pump_after_unregister :
  snd ((registerProducer Sample.deferred_producer false;;
        advance 2 1;;
        unregisterProducer;;
        advance 2 1) Sample.connected_world)
  = Raise (AttributeError "'NoneType' object has no attribute 'resumeProducing'")
  /\ snd ((channel_registerProducer Sample.deferred_producer false;;
           advance 2 1;;
           channel_unregisterProducer;;
           advance 2 1) Sample.connected_world)
     = Return tt.
Proof. split; reflexivity. Qed.

(** A producer whose [resumeProducing] returns [None] is pumped once by
    [FakeTransport] and then breaks the pump. *)
Lemma transport_pump_plain_producer :
  snd ((registerProducer Sample.plain_producer false;; advance 2 1)
         Sample.connected_world)
  = Raise (AttributeError "'NoneType' object has no attribute 'addCallback'").
Proof. reflexivity. Qed.

(** ** [wait_until_result] *)

Section WaitProperties.
Context {S : Type}.
Variable clock_run : M S unit.
Variable clock_advance : Z -> M S unit.
Variable request_finished : S -> bool.
Variable channel_producer : S -> option (M S unit).

(** The states at the successive tests of the loop. *)
Variable s : nat -> S.
Variable timeout : nat.

(** One turn of the loop that does not time out: resume the producer if
    there is one, then [clock.advance(0.1)]. *)
Hypothesis turn :
  forall j, (j < timeout)%nat ->
    request_finished (s j) = false ->
    (resume_channel_producer channel_producer;; clock_advance 1) (s j)
    = (s (Datatypes.S j), Return tt).

Lemma turn_parts j :
  (j < timeout)%nat -> request_finished (s j) = false ->
  exists s', resume_channel_producer channel_producer (s j) = (s', Return tt)
             /\ clock_advance 1 s' = (s (Datatypes.S j), Return tt).
Proof.
  intros Hj Hf. pose proof (turn j Hj Hf) as H. unfold bind in H.
  destruct (resume_channel_producer channel_producer (s j)) as [s' [[]|e|]];
    try discriminate H.
  exists s'. split; [reflexivity | exact H].
Qed.

Lemma wait_loop_times_out r : forall k fuel wT,
  (k + r = timeout)%nat ->
  (forall j, (j <= timeout)%nat -> request_finished (s j) = false) ->
  resume_channel_producer channel_producer (s timeout) = (wT, Return tt) ->
  (r < fuel)%nat ->
  wait_loop clock_advance request_finished channel_producer
    fuel (Z.of_nat timeout) (Z.of_nat k) (s k)
  = (wT, Raise (TimedOutException "Timed out waiting for request to finish.")).
Proof.
  induction r as [|r IH]; intros k fuel wT Hk Hnever Hlast Hfuel;
    (destruct fuel as [|fuel]; [lia|]);
    simpl; unfold bind at 1, get at 1;
    rewrite (Hnever k) by lia; simpl.
  - assert (k = timeout) by lia. subst k.
    unfold bind at 1. rewrite Hlast.
    replace (Z.of_nat timeout + 1 >? Z.of_nat timeout) with true
      by (symmetry; apply Z.gtb_lt; lia).
    reflexivity.
  - destruct (turn_parts k) as (s' & Hp & Ha); [lia | apply Hnever; lia |].
    unfold bind at 1. rewrite Hp.
    replace (Z.of_nat k + 1 >? Z.of_nat timeout) with false
      by (symmetry; rewrite Z.gtb_ltb; apply Z.ltb_ge; lia).
    unfold bind at 1. rewrite Ha.
    replace (Z.of_nat k + 1) with (Z.of_nat (Datatypes.S k)) by lia.
    apply IH; auto; lia.
Qed.

Lemma wait_loop_finishes r : forall i k fuel,
  (i + r = k)%nat -> (k <= timeout)%nat ->
  (forall j, (j < k)%nat -> request_finished (s j) = false) ->
  request_finished (s k) = true ->
  (r <= fuel)%nat ->
  wait_loop clock_advance request_finished channel_producer
    fuel (Z.of_nat timeout) (Z.of_nat i) (s i)
  = (s k, Return tt).
Proof.
  induction r as [|r IH]; intros i k fuel Hi Hk Hnot Hdone Hfuel.
  - assert (i = k) by lia. subst i.
    destruct fuel; simpl; unfold bind at 1, get at 1; rewrite Hdone; reflexivity.
  - destruct fuel as [|fuel]; [lia|].
    simpl. unfold bind at 1, get at 1. rewrite (Hnot i) by lia. simpl.
    destruct (turn_parts i) as (s' & Hp & Ha); [lia | apply Hnot; lia |].
    unfold bind at 1. rewrite Hp.
    replace (Z.of_nat i + 1 >? Z.of_nat timeout) with false
      by (symmetry; rewrite Z.gtb_ltb; apply Z.ltb_ge; lia).
    unfold bind at 1. rewrite Ha.
    replace (Z.of_nat i + 1) with (Z.of_nat (Datatypes.S i)) by lia.
    apply (IH (Datatypes.S i) k); auto; lia.
Qed.

(** C8: let [s 0] be the state after [clock.run()] and [s (j+1)] the state
    one turn (resume the producer, [clock.advance(0.1)]) after [s j].  If
    [request.finished] is unset in [s 0], ..., [s timeout], the call raises
    [TimedOutException], and it does so from the state reached by exactly
    [timeout] calls of [clock.advance(0.1)] (plus the resume of the turn
    that notices the timeout), not from an earlier one.  If [finished] is
    first set in some [s k] with [k <= timeout], the call returns normally
    in that state. *)
Theorem wait_until_result_timeout (w : S) (fuel : nat) :
  clock_run w = (s 0%nat, Return tt) ->
  (timeout < fuel)%nat ->
  (forall wT,
     (forall j, (j <= timeout)%nat -> request_finished (s j) = false) ->
     resume_channel_producer channel_producer (s timeout) = (wT, Return tt) ->
     wait_until_result clock_run clock_advance request_finished channel_producer
       fuel (Z.of_nat timeout) w
     = (wT, Raise (TimedOutException "Timed out waiting for request to finish.")))
  /\ (forall k,
        (k <= timeout)%nat ->
        (forall j, (j < k)%nat -> request_finished (s j) = false) ->
        request_finished (s k) = true ->
        wait_until_result clock_run clock_advance request_finished channel_producer
          fuel (Z.of_nat timeout) w
        = (s k, Return tt)).
Proof.
  intros Hrun Hfuel. split.
  - intros wT Hnever Hlast. unfold wait_until_result, bind at 1. rewrite Hrun.
    apply (wait_loop_times_out timeout 0%nat); auto.
  - intros k Hk Hnot Hdone. unfold wait_until_result, bind at 1. rewrite Hrun.
    apply (wait_loop_finishes k 0%nat k); auto; lia.
Qed.
End WaitProperties.

Lemma sample_turn (finished : World -> bool) j :
  (j < 3)%nat -> finished (SampleRequest.after j) = false ->
  (resume_channel_producer SampleRequest.no_producer;;
   SampleRequest.clock_advance 1) (SampleRequest.after j)
  = (SampleRequest.after (S j), Return tt).
Proof.
  intros Hj _. destruct j as [|[|[|j]]]; try lia; reflexivity.
Qed.

Lemma wait_until_result_timeout_witness :
  wait_until_result SampleRequest.clock_run SampleRequest.clock_advance
    SampleRequest.never_finished SampleRequest.no_producer 4 3
    Sample.connected_world
  = (SampleRequest.after 3,
     Raise (TimedOutException "Timed out waiting for request to finish."))
  /\ Clock.rightNow (reactor (SampleRequest.after 3)) = 3
  /\ wait_until_result SampleRequest.clock_run SampleRequest.clock_advance
       SampleRequest.finished_at_two SampleRequest.no_producer 4 3
       Sample.connected_world
     = (SampleRequest.after 2, Return tt).
Proof.
  split; [|split; [reflexivity|]].
  - apply (wait_until_result_timeout SampleRequest.clock_run
             SampleRequest.clock_advance SampleRequest.never_finished
             SampleRequest.no_producer SampleRequest.after 3
             (sample_turn SampleRequest.never_finished)
             Sample.connected_world 4 eq_refl); [lia | reflexivity | reflexivity].
  - apply (wait_until_result_timeout SampleRequest.clock_run
             SampleRequest.clock_advance SampleRequest.finished_at_two
             SampleRequest.no_producer SampleRequest.after 3
             (sample_turn SampleRequest.finished_at_two)
             Sample.connected_world 4 eq_refl); [lia | lia | | reflexivity].
    intros j Hj. destruct j as [|[|j]]; try lia; reflexivity.
Defined.

(** ** Name resolution *)

(** C9: a name in the table resolves to a Deferred that succeeded with the
    mapped address; a name that is not in the table resolves to a Deferred
    that failed with [DNSLookupError]; so a failure means the name is
    absent and a success carries the table's entry. *)
Theorem getHostByName_table (lookups : gmap string string) (name : string) :
  (forall address, lookups !! name = Some address ->
     getHostByName lookups name = succeed address)
  /\ (lookups !! name = None ->
      getHostByName lookups name
      = fail (DNSLookupError ("OH NO: unknown " +:+ name)))
  /\ (forall address, getHostByName lookups name = succeed address ->
        lookups !! name = Some address).
Proof.
  unfold getHostByName.
  destruct (lookups !! name) as [a|] eqn:E.
  - rewrite bool_decide_eq_true_2 by eauto. simpl.
    repeat split; intros; congruence.
  - rewrite bool_decide_eq_false_2 by (intros [? ?]; discriminate). simpl.
    repeat split; intros; congruence.
Qed.

Lemma getHostByName_table_witness :
  getHostByName SampleRequest.lookups "example.test" = succeed "10.0.0.5"
  /\ getHostByName SampleRequest.lookups "nope.test"
     = fail (DNSLookupError "OH NO: unknown nope.test").
Proof.
  destruct (getHostByName_table SampleRequest.lookups "example.test") as (H1 & _).
  destruct (getHostByName_table SampleRequest.lookups "nope.test") as (_ & H2 & _).
  split; [apply H1; reflexivity | apply H2; reflexivity].
Defined.

(** ** Third-party event rules *)

Lemma init_without_module config :
  match Rules.third_party_event_rules config with
  | None | Some (None, _) => True
  | Some (Some _, _) => False
  end ->
  Rules.third_party_rules (Rules.init config) = None.
Proof.
  unfold Rules.init.
  destruct (Rules.third_party_event_rules config) as [[[cls|] cfg]|];
    simpl; intros H; [destruct H | reflexivity | reflexivity].
Qed.

(** C10: when [third_party_rules] is [None], each of the four checks
    returns [True] for every input and leaves the store, with the log of the
    queries made to it, exactly as it was. *)
Theorem default_allow (self : Rules.ThirdPartyEventRules) (store : Rules.DataStore) :
  Rules.third_party_rules self = None ->
  (forall event context,
     Rules.check_event_allowed self event context store = (store, Return true))
  /\ (forall requester config is_requester_admin,
        Rules.on_create_room self requester config is_requester_admin store
        = (store, Return true))
  /\ (forall medium address room_id,
        Rules.check_threepid_can_be_invited self medium address room_id store
        = (store, Return true))
  /\ (forall room_id,
        Rules.check_room_can_be_added_to_public_rooms_directory self room_id store
        = (store, Return true)).
Proof.
  intros H.
  unfold Rules.check_event_allowed, Rules.on_create_room,
    Rules.check_threepid_can_be_invited,
    Rules.check_room_can_be_added_to_public_rooms_directory.
  rewrite H. repeat split.
Qed.

Lemma default_allow_witness :
  Rules.check_event_allowed (Rules.init SampleRequest.no_rules)
    {| Rules.event_id := "$e"; Rules.content := "{}" |}
    {| Rules.prev_state_ids := [(("m.room.create", ""), "$c")] |}
    SampleRequest.empty_store
  = (SampleRequest.empty_store, Return true).
Proof.
  destruct (default_allow (Rules.init SampleRequest.no_rules)
              SampleRequest.empty_store
              (init_without_module SampleRequest.no_rules I)) as (H & _).
  apply H.
Defined.

(** ** A scenario of the specification *)

(** Write [PING] on a connected transport and advance the clock by a tenth
    once: nothing reaches the peer within the [write], and after the step
    the peer has received [PING] in one piece. *)
Lemma ping_scenario :
  delivered (trace (fst (write Sample.ping Sample.connected_world))) = []
  /\ delivered (trace (run_ops [OpWrite Sample.ping; OpAdvance 1 1]
                         Sample.connected_world)) = [Sample.ping].
Proof. split; reflexivity. Qed.

(** * Further properties of [FakeTransport] *)

Lemma lost_snoc tr e :
  lost (tr ++ [e]) = lost tr ++ match e with EvConnectionLost r => [r] | _ => [] end.
Proof. unfold lost. rewrite omap_app. destruct e; reflexivity. Qed.



Ltac notified_tac :=
  unfold preserves, notified; intros; exec;
  rewrite ?lost_snoc, ?length_app, ?app_nil_r in *; simpl in *;
  try congruence; try lia.

Lemma notified_stable n ops w : notified n w -> notified n (run_ops ops w).
Proof. apply preserves_run_ops; notified_tac. Qed.

(** X2: from a transport that is not yet closing, whatever is done with it
    (any number of [loseConnection] and [abortConnection] calls included),
    the local protocol's [connectionLost] is called at most once. *)
Theorem connectionLost_at_most_once ops w :
  disconnecting (transport w) = false ->
  (length (lost (trace (run_ops ops w))) <= S (length (lost (trace w))))%nat.
Proof.
  intros H.
  assert (H0 : notified (length (lost (trace w))) w).
  { unfold notified. rewrite H. reflexivity. }
  pose proof (notified_stable _ ops w H0) as H1. unfold notified in H1.
  destruct (disconnecting (transport (run_ops ops w))); lia.
Qed.

Lemma connectionLost_at_most_once_witness :
  (length (lost (trace (run_ops [OpLoseConnection (Some "bye"); OpAbortConnection;
                                 OpLoseConnection None]
                          Sample.connected_world))) <= 1)%nat.
Proof.
  exact (connectionLost_at_most_once
           [OpLoseConnection (Some "bye"); OpAbortConnection; OpLoseConnection None]
           Sample.connected_world eq_refl).
Defined.

Ltac still_sending_tac :=
  let Hq := fresh "Hq" in
  let Hs := fresh "Hs" in
  match goal with
  | H : (forall p, _ = Some p -> _) /\ _ |- _ => destruct H as [Hq Hs]
  end;
  first
    [ match goal with
      | E : connectionLost_raises ?q _ = true |- _ =>
          rewrite (Hq q) in E by congruence; discriminate E
      end
    | split; [first [exact Hq | intros; apply Hq; congruence]|]; intros;
      repeat match goal with
             | H : _ && _ = false |- _ => apply andb_false_iff in H as [H|H]
             end;
      rewrite ?negb_false_iff, ?negb_true_iff in *;
      first [congruence | apply Hs; congruence] ].

Lemma still_sending_stable ops w : still_sending w -> still_sending (run_ops ops w).
Proof.
  apply preserves_run_ops; unfold preserves, still_sending, quiet_owner;
    intros; exec; split_andb; still_sending_tac.
Qed.

(** X3: when the local protocol never raises from [connectionLost], a
    transport that is closing but not yet disconnected always has bytes
    left to send: the closing state lasts exactly as long as the buffer is
    non-empty. *)
Theorem closing_has_pending_bytes ops w :
  quiet_owner w ->
  disconnecting (transport w) = false ->
  let w' := run_ops ops w in
  disconnecting (transport w') = true ->
  disconnected (transport w') = false ->
  truthy (buffer (transport w')) = true.
Proof.
  intros Hq Hg w'.
  assert (H0 : still_sending w).
  { split; [exact Hq|]. intros H. congruence. }
  exact (proj2 (still_sending_stable ops w H0)).
Qed.

Lemma closing_has_pending_bytes_witness :
  truthy (buffer (transport (run_ops [OpWrite Sample.ping; OpLoseConnection None;
                                      OpFlush (Some 1)]
                               Sample.connected_world))) = true.
Proof.
  apply (closing_has_pending_bytes
           [OpWrite Sample.ping; OpLoseConnection None; OpFlush (Some 1)]
           Sample.connected_world); try reflexivity.
  intros p Hp h. injection Hp as <-. reflexivity.
Defined.

(** X4: on a closing transport that still holds bytes, a flush whose chunk
    the peer accepts removes that chunk and sets [disconnected] exactly
    when nothing is left; a flush without bound always completes the
    disconnect.  [connected] stays as it was: only [loseConnection] on an
    empty buffer clears it. *)
Theorem flush_completes_disconnect maxbytes w :
  disconnecting (transport w) = true ->
  disconnected (transport w) = false ->
  truthy (buffer (transport w)) = true ->
  transport_attr (other (transport w)) = true ->
  dataReceived_raises (other (transport w)) (trace w) (to_write maxbytes w) = false ->
  let w' := fst (flush maxbytes w) in
  buffer (transport w') =
    slice_from (buffer (transport w)) (length (to_write maxbytes w))
  /\ delivered (trace w') = delivered (trace w) ++ [to_write maxbytes w]
  /\ disconnected (transport w') = negb (truthy (buffer (transport w')))
  /\ connected (transport w') = connected (transport w)
  /\ (maxbytes = None ->
      buffer (transport w') = [] /\ disconnected (transport w') = true).
Proof.
  intros Hg Hd Hb Ha Hr. unfold to_write in *.
  unfold_m. simpl. rewrite Hb, Hd, Ha. simpl. rewrite Hr. simpl.
  set (rest := slice_from (buffer (transport w)) _).
  rewrite Hg, andb_true_r.
  destruct (truthy rest) eqn:Hrest; simpl;
    destruct (autoflush (transport w)); simpl;
    rewrite ?delivered_snoc; repeat split; auto;
    try (rewrite Hrest; simpl; congruence);
    subst maxbytes; subst rest; rewrite drop_own_length in *; simpl in *;
    congruence.
Qed.

Lemma flush_completes_disconnect_witness :
  let w := fst (loseConnection None
                  (Sample.new_world
                     (Sample.new_transport Sample.attached true Sample.ping))) in
  disconnected (transport w) = false
  /\ disconnected (transport (fst (flush (Some 2) w))) = false
  /\ disconnected (transport (fst (flush None w))) = true
  /\ connected (transport (fst (flush None w))) = true.
Proof.
  intros w.
  pose proof (flush_completes_disconnect (Some 2) w
                eq_refl eq_refl eq_refl eq_refl eq_refl) as (_ & _ & H2 & _).
  pose proof (flush_completes_disconnect None w
                eq_refl eq_refl eq_refl eq_refl eq_refl) as (_ & _ & _ & Hc & HN).
  split; [reflexivity|]. split; [exact H2|].
  split; [exact (proj2 (HN eq_refl)) | exact Hc].
Defined.

Lemma slice_to_nothing (b : bytes) m :
  m = 0 \/ m <= - Z.of_nat (length b) -> slice_to b m = [].
Proof.
  unfold slice_to. intros [->|H]; [reflexivity|].
  destruct (0 <=? m) eqn:E.
  - apply Z.leb_le in E. assert (m = 0) by lia. subst. reflexivity.
  - replace (Z.to_nat (Z.of_nat (length b) + m)) with 0%nat by lia. reflexivity.
Qed.

(** X5: a flush with a bound that selects nothing (zero, or a negative
    bound that reaches back to the start of the buffer) still calls the
    peer's [dataReceived], with the empty byte string, and leaves the
    buffer whole and the transport not disconnected. *)
Theorem flush_selecting_nothing m w :
  truthy (buffer (transport w)) = true ->
  disconnected (transport w) = false ->
  transport_attr (other (transport w)) = true ->
  m = 0 \/ m <= - Z.of_nat (length (buffer (transport w))) ->
  let w' := fst (flush (Some m) w) in
  trace w' = trace w ++ [EvDataReceived []]
  /\ buffer (transport w') = buffer (transport w)
  /\ disconnected (transport w') = false.
Proof.
  intros Hb Hd Ha Hm. pose proof (slice_to_nothing _ _ Hm) as Hs.
  unfold_m. simpl. rewrite Hb, Hd, Ha. simpl. rewrite Hs. simpl.
  destruct (dataReceived_raises _ _ _); simpl; [auto|].
  unfold slice_from. simpl. rewrite Hb. simpl.
  destruct (autoflush (transport w)); simpl; auto.
Qed.

Lemma flush_selecting_nothing_witness :
  let w := Sample.new_world (Sample.new_transport Sample.attached true Sample.ping) in
  delivered (trace (fst (flush (Some (-4)) w))) = [[]]
  /\ buffer (transport (fst (flush (Some (-4)) w))) = Sample.ping.
Proof.
  intros w.
  destruct (flush_selecting_nothing (-4) w eq_refl eq_refl eq_refl) as (Ht & Hb & _).
  { right. simpl. lia. }
  split; [rewrite Ht; reflexivity | exact Hb].
Defined.

Lemma run_due_keeps (P : World -> Prop) :
  (forall f, preserves P (modify (with_reactor f))) ->
  preserves P (modify (record EvDelayedCall)) ->
  (forall a, preserves P (fire a)) ->
  forall fuel, preserves P (run_due fuel).
Proof.
  intros Hr Hm Hf. induction fuel as [|fuel IH]; intros w Hw; simpl;
    destruct (Clock.calls (reactor w)) as [|c rest]; auto;
    destruct (Clock.getTime c <=? Clock.rightNow (reactor w)); auto.
  apply (preserves_bind P); auto.
  intros _. apply preserves_bind; auto.
  intros _. apply preserves_bind; auto.
Qed.

Ltac no_empty_tac :=
  unfold preserves, no_empty_delivery; intros;
  match goal with H : _ /\ _ |- _ => destruct H as [? ?] end;
  exec; rewrite ?delivered_snoc, ?app_nil_r; simpl;
  (split;
   [ rewrite ?length_app; simpl; lia
   | rewrite ?drop_app_le by lia; repeat (apply Forall_app; split); auto;
     repeat constructor;
     let E := fresh in intros E; rewrite E in *; discriminate ]).

Lemma no_empty_fire n a : preserves (no_empty_delivery n) (fire a).
Proof. destruct a; simpl; no_empty_tac. Qed.

Lemma no_empty_run_op n o :
  is_unbounded o = true -> preserves (no_empty_delivery n) (run_op o).
Proof.
  intros Ho. destruct o as [| seq | [m|] | | | | | | | | | |fuel amount];
    try discriminate Ho; simpl; try no_empty_tac.
  - induction seq as [|x seq IH]; simpl; [apply preserves_ret|].
    apply preserves_bind; [no_empty_tac | intros _; exact (IH eq_refl)].
  - unfold advance. apply preserves_bind; [no_empty_tac|].
    intros _. apply run_due_keeps; try apply no_empty_fire; no_empty_tac.
Qed.

(** X6: as long as no flush is given a bound, the peer's [dataReceived] is
    never called with an empty byte string, whatever else is done and
    however the reactor is turned. *)
Theorem unbounded_flush_never_empty ops w :
  forallb is_unbounded ops = true ->
  Forall (fun chunk => chunk <> [])
    (drop (length (delivered (trace w))) (delivered (trace (run_ops ops w)))).
Proof.
  intros Hops.
  assert (H0 : no_empty_delivery (length (delivered (trace w))) w).
  { split; [reflexivity|]. rewrite drop_all. constructor. }
  revert H0. generalize (length (delivered (trace w))) as n. intros n.
  revert w. induction ops as [|o ops IH]; intros w H0; simpl.
  - exact (proj2 H0).
  - simpl in Hops. apply andb_true_iff in Hops as [Ho Hops].
    apply IH; [exact Hops|]. apply no_empty_run_op; assumption.
Qed.

Lemma unbounded_flush_never_empty_witness :
  Forall (fun chunk => chunk <> [])
    (delivered (trace (run_ops [OpWrite []; OpWrite Sample.ping; OpFlush None;
                                OpWrite []; OpAdvance 5 1]
                         Sample.connected_world))).
Proof.
  exact (unbounded_flush_never_empty
           [OpWrite []; OpWrite Sample.ping; OpFlush None; OpWrite []; OpAdvance 5 1]
           Sample.connected_world eq_refl).
Defined.

Lemma schedule_length {A} (dc : Clock.DelayedCall A) l :
  length (Clock.schedule dc l) = S (length l).
Proof.
  induction l as [|c l IH]; simpl; [reflexivity|].
  destruct (Clock.getTime dc <? Clock.getTime c); simpl; congruence.
Qed.

Lemma write_connected byt w :
  disconnecting (transport w) = false ->
  snd (write byt w) = Return tt
  /\ transport (fst (write byt w)) =
     set_buffer (buffer (transport w) ++ byt) (transport w)
  /\ trace (fst (write byt w)) = trace w
  /\ channel (fst (write byt w)) = channel w
  /\ reactor (fst (write byt w)) =
     if autoflush (transport w) then Clock.callLater 0 AFlush (reactor w)
     else reactor w.
Proof.
  intros H. unfold_m. simpl. rewrite H. simpl.
  destruct (autoflush (transport w)); simpl; auto.
Qed.

(** X7: on a transport that is not closing, [writeSequence] returns
    normally, appends the concatenation of its items to the buffer, calls
    nobody, and schedules one flush per item when [autoflush] is set and
    none otherwise.  On a closing transport it raises at its first item and
    changes nothing, and an empty sequence returns normally. *)
Theorem writeSequence_appends seq w :
  (is_disconnecting w ->
   writeSequence seq w =
   (w, match seq with
       | [] => Return tt
       | _ :: _ => Raise (Exception "Writing to disconnecting FakeTransport")
       end))
  /\ (disconnecting (transport w) = false ->
      let w' := fst (writeSequence seq w) in
      snd (writeSequence seq w) = Return tt
      /\ buffer (transport w') = buffer (transport w) ++ concat seq
      /\ trace w' = trace w
      /\ length (Clock.calls (reactor w')) =
         (length (Clock.calls (reactor w))
          + if autoflush (transport w) then length seq else 0)%nat).
Proof.
  split.
  - intros H. destruct seq as [|x seq]; [reflexivity|].
    simpl. unfold bind. rewrite write_disconnecting by exact H. reflexivity.
  - revert w. induction seq as [|x seq IH]; intros w H; simpl.
    + rewrite app_nil_r. repeat split. destruct (autoflush (transport w)); lia.
    + destruct (write_connected x w H) as (Hs & Ht & Htr & _ & Hr).
      unfold bind. destruct (write x w) as [w1 o]; simpl in *. subst o.
      assert (H1 : disconnecting (transport w1) = false) by (rewrite Ht; exact H).
      destruct (IH w1 H1) as (Is & Ib & Itr & Ic).
      split; [exact Is|]. split; [|split].
      * rewrite Ib, Ht. simpl. rewrite <- app_assoc. reflexivity.
      * rewrite Itr. exact Htr.
      * rewrite Ic, Hr, Ht. simpl.
        destruct (autoflush (transport w)); simpl;
          rewrite ?schedule_length; lia.
Qed.

Lemma writeSequence_appends_witness :
  buffer (transport (fst (writeSequence [Sample.ping; []; Sample.pong]
                            Sample.connected_world)))
  = Sample.ping ++ Sample.pong
  /\ length (Clock.calls (reactor (fst (writeSequence [Sample.ping; []; Sample.pong]
                                          Sample.connected_world)))) = 3%nat.
Proof.
  destruct (writeSequence_appends [Sample.ping; []; Sample.pong]
              Sample.connected_world) as [_ H].
  destruct (H eq_refl) as (_ & Hb & _ & Hc). split; [exact Hb | exact Hc].
Defined.

(** X8: once [unregisterProducer] has been called, any further calls of
    [pauseProducing], [resumeProducing] and [unregisterProducer] on the
    transport change nothing and reach no producer. *)
Theorem flow_control_after_unregister ops w :
  forallb is_flow_control ops = true ->
  producer (transport (fst (unregisterProducer w))) = None
  /\ run_ops ops (fst (unregisterProducer w)) = fst (unregisterProducer w).
Proof.
  intros Hops.
  assert (H0 : producer (transport (fst (unregisterProducer w))) = None).
  { exec; congruence. }
  split; [exact H0|].
  revert Hops. generalize dependent (fst (unregisterProducer w)). intros w0 H0.
  induction ops as [|o ops IH]; intros Hops; [reflexivity|].
  simpl in Hops. apply andb_true_iff in Hops as [Ho Hops].
  assert (E : fst (run_op o w0) = w0).
  { destruct o; try discriminate Ho; simpl; unfold_m; simpl; rewrite H0;
      reflexivity. }
  simpl. rewrite E. apply IH. exact Hops.
Qed.

Lemma flow_control_after_unregister_witness :
  let w := fst (registerProducer Sample.deferred_producer true
                  Sample.connected_world) in
  trace (run_ops [OpPauseProducing; OpResumeProducing; OpUnregisterProducer]
           (fst (unregisterProducer w))) = [].
Proof.
  intros w.
  destruct (flow_control_after_unregister
              [OpPauseProducing; OpResumeProducing; OpUnregisterProducer] w eq_refl)
    as [_ H].
  rewrite H. reflexivity.
Defined.

(** ** Writes followed by a turn of the reactor *)

Lemma schedule_replicate {A} (c : Clock.DelayedCall A) k :
  Clock.schedule c (replicate k c) = replicate (S k) c.
Proof.
  induction k as [|k IH]; simpl; [reflexivity|].
  rewrite Z.ltb_irrefl, IH. reflexivity.
Qed.

Lemma writes_queue chunks : forall w k,
  disconnecting (transport w) = false ->
  autoflush (transport w) = true ->
  Clock.calls (reactor w) =
    replicate k {| Clock.getTime := Clock.rightNow (reactor w) + 0;
                   Clock.func := AFlush |} ->
  let w' := run_ops (map OpWrite chunks) w in
  transport w' = set_buffer (buffer (transport w) ++ concat chunks) (transport w)
  /\ trace w' = trace w
  /\ Clock.rightNow (reactor w') = Clock.rightNow (reactor w)
  /\ Clock.calls (reactor w') =
     replicate (k + length chunks)
       {| Clock.getTime := Clock.rightNow (reactor w) + 0; Clock.func := AFlush |}.
Proof.
  induction chunks as [|x chunks IH]; intros w k Hg Hauto Hq; simpl.
  - rewrite app_nil_r, Nat.add_0_r. destruct w as [r t c tr], t. simpl in *. auto.
  - destruct (write_connected x w Hg) as (_ & Ht & Htr & _ & Hr).
    rewrite Hauto in Hr.
    destruct (IH (fst (write x w)) (S k)) as (It & Itr & In & Ic).
    + rewrite Ht. exact Hg.
    + rewrite Ht. exact Hauto.
    + rewrite Hr. simpl. rewrite Hq. apply schedule_replicate.
    + rewrite It, Itr, In, Ic, Ht, Htr, Hr. simpl.
      rewrite <- app_assoc, Nat.add_succ_r. auto.
Qed.

Lemma flush_whole_buffer w :
  disconnecting (transport w) = false ->
  disconnected (transport w) = false ->
  transport_attr (other (transport w)) = true ->
  (forall h b, dataReceived_raises (other (transport w)) h b = false) ->
  truthy (buffer (transport w)) = true ->
  snd (flush None w) = Return tt
  /\ transport (fst (flush None w)) = set_buffer [] (transport w)
  /\ reactor (fst (flush None w)) = reactor w
  /\ trace (fst (flush None w)) = trace w ++ [EvDataReceived (buffer (transport w))].
Proof.
  intros Hg Hd Ha Hr Hb. unfold_m. simpl. rewrite Hb, Hd, Ha. simpl.
  rewrite Hr. simpl. rewrite drop_own_length. simpl. rewrite Hg. simpl. auto.
Qed.

Lemma run_due_flushes k : forall w fuel c,
  disconnecting (transport w) = false ->
  disconnected (transport w) = false ->
  transport_attr (other (transport w)) = true ->
  (forall h b, dataReceived_raises (other (transport w)) h b = false) ->
  Clock.calls (reactor w) = replicate k c ->
  Clock.func c = AFlush ->
  Clock.getTime c <= Clock.rightNow (reactor w) ->
  (truthy (buffer (transport w)) = true -> (0 < k)%nat) ->
  (k <= fuel)%nat ->
  snd (run_due fuel w) = Return tt
  /\ buffer (transport (fst (run_due fuel w))) = []
  /\ Clock.calls (reactor (fst (run_due fuel w))) = []
  /\ delivered (trace (fst (run_due fuel w))) =
     delivered (trace w)
     ++ (if truthy (buffer (transport w)) then [buffer (transport w)] else []).
Proof.
  induction k as [|k IH]; intros w fuel c Hg Hd Ha Hr Hq Hf Ht Hk Hfuel.
  - rewrite run_due_nil by exact Hq. simpl.
    destruct (buffer (transport w)) as [|b0 bs] eqn:Hb; simpl.
    + rewrite app_nil_r. auto.
    + specialize (Hk eq_refl). lia.
  - destruct fuel as [|fuel]; [lia|].
    change (replicate (S k) c) with (c :: replicate k c) in Hq.
    rewrite (run_due_now fuel w c (replicate k c) Hq Ht).
    rewrite Hf. simpl fire. cbv [bind modify].
    remember (record EvDelayedCall
                (with_reactor (Clock.set_calls (replicate k c)) w)) as w0 eqn:E0.
    assert (T0 : transport w0 = transport w) by (subst w0; reflexivity).
    assert (R0 : reactor w0 = Clock.set_calls (replicate k c) (reactor w))
      by (subst w0; reflexivity).
    assert (Tr0 : trace w0 = trace w ++ [EvDelayedCall]) by (subst w0; reflexivity).
    clear E0.
    destruct (truthy (buffer (transport w))) eqn:Hb.
    + destruct (flush_whole_buffer w0) as (Fs & Ft & Fr & Ftr);
        try (rewrite T0; assumption).
      destruct (flush None w0) as [w1 o]. simpl in Fs, Ft, Fr, Ftr. subst o.
      destruct (IH w1 fuel c) as (Is & Ib & Ic & Id);
        [ rewrite Ft, T0; exact Hg | rewrite Ft, T0; exact Hd
        | rewrite Ft, T0; exact Ha | rewrite Ft, T0; exact Hr
        | rewrite Fr, R0; reflexivity | exact Hf
        | rewrite Fr, R0; exact Ht | rewrite Ft; simpl; discriminate | lia | ].
      split; [exact Is|]. split; [exact Ib|]. split; [exact Ic|].
      rewrite Id, Ftr, Ft, Tr0, T0. simpl.
      rewrite !delivered_snoc. simpl. rewrite !app_nil_r. reflexivity.
    + assert (Hnil : buffer (transport w) = [])
        by (destruct (buffer (transport w)); [reflexivity | discriminate Hb]).
      assert (Hfl : flush None w0 = (w0, Return tt)).
      { unfold_m. simpl. rewrite T0, Hnil. reflexivity. }
      rewrite Hfl.
      destruct (IH w0 fuel c) as (Is & Ib & Ic & Id);
        [ rewrite T0; exact Hg | rewrite T0; exact Hd | rewrite T0; exact Ha
        | rewrite T0; exact Hr | rewrite R0; reflexivity | exact Hf
        | rewrite R0; exact Ht | rewrite T0, Hnil; discriminate | lia | ].
      split; [exact Is|]. split; [exact Ib|]. split; [exact Ic|].
      rewrite Id, Tr0, T0, Hnil. simpl.
      rewrite delivered_snoc. simpl. rewrite !app_nil_r. reflexivity.
Qed.

(** X9: on a connected transport with [autoflush], an empty buffer and an
    idle reactor, whose peer is attached and never raises, any number of
    writes reach the peer only when the reactor is turned, and the first
    turn hands them over in one [dataReceived] call that holds their
    concatenation (in no call at all when nothing was written), leaving
    buffer and queue empty. *)
Theorem advance_delivers_writes chunks w fuel amount :
  disconnecting (transport w) = false ->
  disconnected (transport w) = false ->
  transport_attr (other (transport w)) = true ->
  (forall h b, dataReceived_raises (other (transport w)) h b = false) ->
  autoflush (transport w) = true ->
  buffer (transport w) = [] ->
  Clock.calls (reactor w) = [] ->
  (length chunks <= fuel)%nat ->
  0 <= amount ->
  let w1 := run_ops (map OpWrite chunks) w in
  let w2 := fst (advance fuel amount w1) in
  delivered (trace w1) = delivered (trace w)
  /\ snd (advance fuel amount w1) = Return tt
  /\ delivered (trace w2) =
     delivered (trace w)
     ++ (if truthy (concat chunks) then [concat chunks] else [])
  /\ buffer (transport w2) = []
  /\ Clock.calls (reactor w2) = [].
Proof.
  intros Hg Hd Ha Hr Hauto Hb Hq Hfuel Hamount w1 w2.
  destruct (writes_queue chunks w 0 Hg Hauto Hq) as (Wt & Wtr & Wn & Wc).
  fold w1 in Wt, Wtr, Wn, Wc. rewrite Hb in Wt. simpl in Wt, Wc.
  split; [rewrite Wtr; reflexivity|].
  destruct (run_due_flushes (length chunks)
              (with_reactor (Clock.tick amount) w1) fuel
              {| Clock.getTime := Clock.rightNow (reactor w) + 0;
                 Clock.func := AFlush |})
    as (Rs & Rb & Rc & Rd); simpl; rewrite ?Wt; simpl; auto; try lia.
  - intros Hne. destruct chunks; [discriminate Hne | simpl; lia].
  - simpl in Rd. rewrite Wt, Wtr in Rd. simpl in Rd. auto.
Qed.

Lemma advance_delivers_writes_witness :
  delivered (trace (fst (advance 3 1
                           (run_ops (map OpWrite [Sample.ping; []; Sample.pong])
                              Sample.connected_world))))
  = [Sample.ping ++ Sample.pong].
Proof.
  assert (Hfuel : (length [Sample.ping; []; Sample.pong] <= 3)%nat) by (simpl; lia).
  assert (Hamount : 0 <= 1) by lia.
  exact (proj1 (proj2 (proj2
    (advance_delivers_writes [Sample.ping; []; Sample.pong]
       Sample.connected_world 3 1 eq_refl eq_refl eq_refl (fun _ _ => eq_refl)
       eq_refl eq_refl eq_refl Hfuel Hamount)))).
Defined.

(** * Further properties of [wait_until_result] *)

Lemma channel_pump_advance_returns p w fuel d :
  channel_pumping p w -> (0 < fuel)%nat -> 1 <= d ->
  snd (advance fuel d w) = Return tt.
Proof.
  intros (Hp & due & Hdue & Hq) Hfuel Hd.
  destruct fuel as [|fuel]; [lia|].
  remember (advance (S fuel) d w) as r eqn:Hr.
  unfold advance, bind at 1, modify at 1 in Hr.
  erewrite run_due_now in Hr by (simpl; first [exact Hq | lia]).
  simpl fire in Hr. unfold_m. simpl in Hr. rewrite Hp in Hr. simpl in Hr.
  erewrite run_due_later in Hr by (simpl; first [reflexivity | lia]).
  subst r. reflexivity.
Qed.

Lemma wait_loop_pumps p fuel' timeout r : forall k w fuel,
  channel_pumping p w -> (0 < fuel')%nat ->
  (k + r = timeout)%nat -> (r < fuel)%nat ->
  exists w',
    wait_loop (advance fuel') never_finished request_channel_producer
      fuel (Z.of_nat timeout) (Z.of_nat k) w
    = (w', Raise (TimedOutException "Timed out waiting for request to finish."))
    /\ resumed (trace w') =
       resumed (trace w) ++ replicate (2 * r + 1) (producer_id p).
Proof.
  induction r as [|r IH]; intros k w fuel Hw Hf' Hk Hfuel;
    (destruct fuel as [|fuel]; [lia|]);
    pose proof Hw as (Hp & due & Hdue & Hq);
    simpl; unfold bind at 1, get at 1; simpl;
    unfold resume_channel_producer, request_channel_producer;
    unfold bind at 1; unfold bind at 1, get at 1; rewrite Hp;
    unfold producer_resumeProducing; unfold_m; simpl.
  - replace (Z.of_nat k + 1 >? Z.of_nat timeout) with true
      by (symmetry; apply Z.gtb_lt; lia).
    eexists. split; [reflexivity|]. simpl. rewrite resumed_snoc. reflexivity.
  - replace (Z.of_nat k + 1 >? Z.of_nat timeout) with false
      by (symmetry; rewrite Z.gtb_ltb; apply Z.ltb_ge; lia).
    set (wa := record (EvResumeProducing (producer_id p)) w).
    assert (Ha : channel_pumping p wa).
    { split; [exact Hp|]. exists due. split; [exact Hdue | exact Hq]. }
    assert (H1 : 1 <= 1) by lia.
    destruct (channel_pump_advance p wa fuel' 1 Ha Hf' H1) as [Hb Hres].
    pose proof (channel_pump_advance_returns p wa fuel' 1 Ha Hf' H1) as Hret.
    destruct (advance fuel' 1 wa) as [wb o]. simpl in Hb, Hres, Hret. subst o.
    replace (Z.of_nat k + 1) with (Z.of_nat (S k)) by lia.
    destruct (IH (S k) wb fuel Hb Hf') as (w' & I1 & I2); try lia.
    exists w'. split; [exact I1|]. rewrite I2, Hres. unfold wa. simpl.
    rewrite resumed_snoc. simpl. rewrite <- !app_assoc. simpl.
    replace (r + S (r + 0) + 1)%nat with (S (r + (r + 0) + 1))%nat by lia.
    reflexivity.
Qed.

(** X10: when the request never finishes and a non-streaming producer is
    registered on its [FakeChannel] with the pump on the reactor's queue,
    [wait_until_result] times out after having called the producer's
    [resumeProducing] [2 * timeout + 1] times: once by the loop in each of
    its [timeout + 1] turns, and once by the channel's own pump in each of
    the [timeout] calls of [clock.advance(0.1)]. *)
Theorem wait_until_result_resumes_twice p (clock_run : M World unit) w w0
    (timeout fuel fuel' : nat) :
  clock_run w = (w0, Return tt) ->
  channel_pumping p w0 ->
  (0 < fuel')%nat -> (timeout < fuel)%nat ->
  let res := wait_until_result clock_run (advance fuel') never_finished
               request_channel_producer fuel (Z.of_nat timeout) w in
  snd res = Raise (TimedOutException "Timed out waiting for request to finish.")
  /\ resumed (trace (fst res)) =
     resumed (trace w0) ++ replicate (2 * timeout + 1) (producer_id p).
Proof.
  intros Hrun Hw Hf' Hfuel res.
  destruct (wait_loop_pumps p fuel' timeout timeout 0%nat w0 fuel)
    as (w' & H1 & H2); auto.
  assert (E : res =
    (w', Raise (TimedOutException "Timed out waiting for request to finish."))).
  { unfold res, wait_until_result, bind. rewrite Hrun. exact H1. }
  rewrite E. split; [reflexivity | exact H2].
Qed.

Lemma wait_until_result_resumes_twice_witness :
  let w := fst (channel_registerProducer Sample.deferred_producer false
                  Sample.connected_world) in
  resumed (trace (fst (wait_until_result (ret tt) (advance 2) never_finished
                         request_channel_producer 4 3 w)))
  = [7; 7; 7; 7; 7; 7; 7]%nat.
Proof.
  intros w.
  assert (Hw : channel_pumping Sample.deferred_producer w).
  { split; [reflexivity|]. exists 0. split; [unfold w; simpl; lia | reflexivity]. }
  assert (H2 : (0 < 2)%nat) by lia.
  assert (H4 : (3 < 4)%nat) by lia.
  exact (proj2 (wait_until_result_resumes_twice Sample.deferred_producer
                  (ret tt) w w 3 4 2 eq_refl Hw H2 H4)).
Defined.

(** * Properties of the result dictionary of [FakeChannel] *)

Lemma channel_body_run ops : forall r,
  ChannelResult.body (ChannelResult.run_ops ops r) =
  match ChannelResult.contents ops, ChannelResult.body r with
  | [], b => b
  | cs, None => Some (concat cs)
  | cs, Some b => Some (b ++ concat cs)
  end.
Proof.
  induction ops as [|o ops IH]; intros r; simpl.
  - destruct (ChannelResult.body r); reflexivity.
  - rewrite IH. destruct o as [v c rs hs|content|]; simpl.
    + destruct (ChannelResult.contents ops), (ChannelResult.body r); reflexivity.
    + unfold ChannelResult.write, bind, get, modify, ret. simpl.
      destruct (ChannelResult.body r) as [b|] eqn:E; simpl; rewrite ?E; simpl;
        destruct (ChannelResult.contents ops); simpl;
        rewrite ?app_nil_r, <- ?app_assoc; reflexivity.
    + destruct (ChannelResult.contents ops), (ChannelResult.body r); reflexivity.
Qed.

(** X11: starting from the empty result, after any sequence of
    [writeHeaders], [write] and [requestDone] calls, [result["body"]] is
    absent when nothing was written and is otherwise the concatenation of
    the written contents in call order; the other calls never disturb it. *)
Theorem channel_body_accumulates ops :
  ChannelResult.body (ChannelResult.run_ops ops ChannelResult.empty) =
  match ChannelResult.contents ops with
  | [] => None
  | cs => Some (concat cs)
  end.
Proof. rewrite channel_body_run. simpl. destruct (ChannelResult.contents ops); reflexivity. Qed.

Lemma channel_not_empty_run_op o r :
  ChannelResult.is_empty (fst (ChannelResult.run_op o r)) = false.
Proof.
  destruct o; simpl; unfold ChannelResult.write, ChannelResult.is_empty,
    bind, get, modify, ret; simpl.
  - reflexivity.
  - destruct (ChannelResult.body r) eqn:E; simpl; rewrite ?E; simpl;
      destruct (ChannelResult.version r), (ChannelResult.code r),
        (ChannelResult.reason r), (ChannelResult.headers r); reflexivity.
  - destruct (ChannelResult.version r), (ChannelResult.code r),
      (ChannelResult.reason r), (ChannelResult.headers r), (ChannelResult.body r);
      reflexivity.
Qed.

Lemma channel_not_empty_run ops : forall r,
  ChannelResult.is_empty r = false ->
  ChannelResult.is_empty (ChannelResult.run_ops ops r) = false.
Proof.
  induction ops as [|o ops IH]; intros r H; simpl; [exact H|].
  apply IH. apply channel_not_empty_run_op.
Qed.

Lemma channel_code_run ops : forall r,
  ChannelResult.code (ChannelResult.run_ops ops r) =
  ChannelResult.last_code ops (ChannelResult.code r).
Proof.
  induction ops as [|o ops IH]; intros r; simpl; [reflexivity|].
  rewrite IH. destruct o; simpl; try reflexivity.
  unfold ChannelResult.write, bind, get, modify, ret. simpl.
  destruct (ChannelResult.body r) eqn:E; simpl; rewrite ?E; reflexivity.
Qed.

(** X12: reading [code] from a channel that started with the empty result
    raises [Exception("No result yet.")] exactly when nothing has been
    called on the channel; once anything has been called it converts the
    status of the last [writeHeaders], and raises [KeyError] when there was
    a [write] or [requestDone] but no [writeHeaders] yet. *)
Theorem channel_code_guard (int : bytes -> outcome Z) ops :
  let r := ChannelResult.run_ops ops ChannelResult.empty in
  ChannelResult.get_code int r =
  (r, match ops with
      | [] => Raise (Exception "No result yet.")
      | _ :: _ =>
          match ChannelResult.last_code ops None with
          | Some c => int c
          | None => Raise (KeyError "code")
          end
      end).
Proof.
  intros r. unfold ChannelResult.get_code, bind, get, raise.
  destruct ops as [|o ops]; [reflexivity|].
  assert (He : ChannelResult.is_empty r = false).
  { unfold r. simpl. apply channel_not_empty_run, channel_not_empty_run_op. }
  rewrite He. unfold r. rewrite channel_code_run.
  change (ChannelResult.code ChannelResult.empty) with (@None bytes).
  destruct (ChannelResult.last_code (o :: ops) None); reflexivity.
Qed.

(** * Properties of the connection bookkeeping *)

(** X13: [connectTCP] first records the attempt, always with
    [bindAddress] [None] whatever the caller passes, and then calls the
    callback registered last for exactly that host and port, if there is
    one; registering a callback for one address changes nothing for the
    others. *)
Theorem connectTCP_calls_registered h p callback h' p' f to bind_address s :
  let s1 := fst (Tcp.add_tcp_client_callback h p callback s) in
  let s2 := fst (Tcp.connectTCP h' p' f to bind_address s1) in
  Tcp.tcpClients s2 =
    Tcp.tcpClients s
    ++ [{| Tcp.host := h'; Tcp.port := p'; Tcp.factory := f; Tcp.timeout := to;
           Tcp.bindAddress := None |}]
  /\ Tcp.called s2 =
     Tcp.called s
     ++ (if decide ((h, p) = (h', p')) then [Tcp.callback_id callback]
         else match Tcp._tcp_callbacks s !! (h', p') with
              | Some c => [Tcp.callback_id c]
              | None => []
              end).
Proof.
  intros s1 s2. unfold s2, s1, Tcp.connectTCP, Tcp.super_connectTCP,
    Tcp.add_tcp_client_callback, Tcp.call, bind, get, modify, ret, raise.
  simpl. rewrite lookup_insert.
  destruct (decide ((h, p) = (h', p'))) as [E|E]; simpl.
  - destruct (Tcp.callback_raises callback); simpl; auto.
  - destruct (Tcp._tcp_callbacks s !! (h', p')) as [c|]; simpl.
    + destruct (Tcp.callback_raises c); simpl; auto.
    + rewrite app_nil_r. auto.
Qed.

(** * Properties of the request path *)

Lemma startswith_nil b : RequestPath.startswith b [] = true.
Proof. destruct b; reflexivity. Qed.

Lemma replace_double_slash_head path :
  exists t, RequestPath.replace_double_slash (RequestPath.slash :: path)
            = RequestPath.slash :: t.
Proof.
  destruct path as [|c path]; simpl; [eauto|].
  destruct (Byte.eqb c RequestPath.slash); eauto.
Qed.

Lemma decorated_prefix path :
  exists t,
    RequestPath.replace_double_slash
      (RequestPath.of_string "/_matrix/client/r0/" ++ path)
    = RequestPath.of_string "/_matrix/client/r0/" ++ t.
Proof.
  destruct (replace_double_slash_head path) as [t Ht].
  exists t. cbn -[RequestPath.replace_double_slash].
  change (RequestPath.replace_double_slash
            (Byte.x2f :: Byte.x5f :: Byte.x6d :: Byte.x61 :: Byte.x74 :: Byte.x72
             :: Byte.x69 :: Byte.x78 :: Byte.x2f :: Byte.x63 :: Byte.x6c
             :: Byte.x69 :: Byte.x65 :: Byte.x6e :: Byte.x74 :: Byte.x2f
             :: Byte.x72 :: Byte.x30 :: RequestPath.slash :: path)
          = Byte.x2f :: Byte.x5f :: Byte.x6d :: Byte.x61 :: Byte.x74 :: Byte.x72
             :: Byte.x69 :: Byte.x78 :: Byte.x2f :: Byte.x63 :: Byte.x6c
             :: Byte.x69 :: Byte.x65 :: Byte.x6e :: Byte.x74 :: Byte.x2f
             :: Byte.x72 :: Byte.x30 :: RequestPath.slash :: t).
  rewrite <- Ht. reflexivity.
Qed.

(** X14: whatever path it is given, the path [make_request] computes starts
    with a slash, is left unchanged when it is decorated again with the
    same [shorthand], and with [shorthand] set starts with [/_matrix] or
    [/_synapse]. *)
Theorem make_request_path_decorated shorthand path :
  let p := RequestPath.make_request_path shorthand path in
  RequestPath.startswith p (RequestPath.of_string "/") = true
  /\ RequestPath.make_request_path shorthand p = p
  /\ (shorthand = true ->
      RequestPath.startswith p (RequestPath.of_string "/_matrix")
      || RequestPath.startswith p (RequestPath.of_string "/_synapse") = true).
Proof.
  intros p. unfold p, RequestPath.make_request_path.
  destruct (shorthand
            && negb (RequestPath.startswith path (RequestPath.of_string "/_matrix"))
            && negb (RequestPath.startswith path (RequestPath.of_string "/_synapse")))
    eqn:Hdec.
  - destruct (decorated_prefix path) as [t Ht]. rewrite Ht.
    apply andb_true_iff in Hdec as [Hdec _]. apply andb_true_iff in Hdec as [-> _].
    repeat split.
  - destruct (RequestPath.startswith path (RequestPath.of_string "/")) eqn:Hs; simpl.
    + rewrite Hdec, Hs. simpl. split; [first [exact Hs | reflexivity]|].
      split; [reflexivity|].
      intros ->. simpl in Hdec.
      destruct (RequestPath.startswith path (RequestPath.of_string "/_matrix"));
        [reflexivity|].
      destruct (RequestPath.startswith path (RequestPath.of_string "/_synapse"));
        [reflexivity | discriminate Hdec].
    + assert (Hm : RequestPath.startswith path (RequestPath.of_string "/_matrix") = false).
      { destruct path as [|c path]; [reflexivity|]. simpl in Hs |- *.
        replace (RequestPath.startswith path []) with true in Hs
          by (destruct path; reflexivity).
        rewrite andb_true_r in Hs. rewrite Hs. reflexivity. }
      assert (Hy : RequestPath.startswith path (RequestPath.of_string "/_synapse") = false).
      { destruct path as [|c path]; [reflexivity|]. simpl in Hs |- *.
        replace (RequestPath.startswith path []) with true in Hs
          by (destruct path; reflexivity).
        rewrite andb_true_r in Hs. rewrite Hs. reflexivity. }
      rewrite Hm, Hy in Hdec. simpl in Hdec. rewrite !andb_true_r in Hdec.
      subst shorthand. simpl. rewrite !startswith_nil. simpl.
      split; [reflexivity|]. split; [reflexivity | discriminate].
Qed.

(** * Properties of [ThirdPartyEventRules] with a module *)

Lemma fetch_state_events_run ids : forall acc s,
  Rules.fetch_state_events ids acc s =
  ({| Rules.events := Rules.events s;
      Rules.current_state_ids := Rules.current_state_ids s;
      Rules.store_calls :=
        Rules.store_calls s ++ map (fun kv => Rules.GetEvent kv.2) ids |},
   Return (foldl (fun m kv => <[kv.1 := Rules.events s !! kv.2]> m) acc ids)).
Proof.
  induction ids as [|[key id] ids IH]; intros acc s; simpl.
  - rewrite app_nil_r. destruct s; reflexivity.
  - unfold bind at 1, Rules.get_event, bind, modify, get, ret. simpl.
    rewrite IH. simpl. rewrite <- app_assoc. reflexivity.
Qed.

Lemma foldl_insert_other {V} (g : string -> V) ids : forall (acc : gmap Rules.StateKey V) key,
  key ∉ ids.*1 ->
  foldl (fun m (kv : Rules.StateKey * string) => <[kv.1 := g kv.2]> m) acc ids !! key
  = acc !! key.
Proof.
  induction ids as [|[k id] ids IH]; intros acc key Hk; simpl; [reflexivity|].
  simpl in Hk. apply not_elem_of_cons in Hk as [Hne Hk].
  rewrite IH by exact Hk. apply lookup_insert_ne. congruence.
Qed.

Lemma foldl_insert_member {V} (g : string -> V) ids : forall (acc : gmap Rules.StateKey V) key id,
  NoDup ids.*1 -> (key, id) ∈ ids ->
  foldl (fun m (kv : Rules.StateKey * string) => <[kv.1 := g kv.2]> m) acc ids !! key
  = Some (g id).
Proof.
  induction ids as [|[k i] ids IH]; intros acc key id Hnd Hin; simpl.
  - apply elem_of_nil in Hin. destruct Hin.
  - simpl in Hnd. apply NoDup_cons in Hnd as [Hk Hnd].
    apply elem_of_cons in Hin as [E|Hin].
    + simplify_eq. rewrite foldl_insert_other by exact Hk.
      apply lookup_insert_eq.
    + apply IH; assumption.
Qed.

(** X15: with a rules module configured, [check_event_allowed] first asks
    the store for the event of every previous state id, once each and in
    the order of the context, changes nothing else in the store, and then
    returns whatever the module's [check_event_allowed] does on the event
    and the fetched state.  In that state every key of the context maps to
    the store's event for its id, or to [None] when the store has no such
    event (no exception is raised for a missing event); keys that are not
    in the context are absent. *)
Theorem check_event_allowed_fetches_state self rules event context store :
  Rules.third_party_rules self = Some rules ->
  NoDup (Rules.prev_state_ids context).*1 ->
  exists state_events store',
    Rules.check_event_allowed self event context store
    = Rules.mod_check_event_allowed rules event state_events store'
    /\ Rules.store_calls store' =
       Rules.store_calls store
       ++ map (fun kv => Rules.GetEvent kv.2) (Rules.prev_state_ids context)
    /\ Rules.events store' = Rules.events store
    /\ Rules.current_state_ids store' = Rules.current_state_ids store
    /\ (forall key id, (key, id) ∈ Rules.prev_state_ids context ->
          state_events !! key = Some (Rules.events store !! id))
    /\ (forall key, key ∉ (Rules.prev_state_ids context).*1 ->
          state_events !! key = None).
Proof.
  intros Hr Hnd. unfold Rules.check_event_allowed. rewrite Hr.
  unfold bind. rewrite fetch_state_events_run.
  eexists. eexists. split; [reflexivity|]. simpl.
  split; [reflexivity|]. split; [reflexivity|]. split; [reflexivity|]. split.
  - intros key id Hin.
    apply (foldl_insert_member (fun i => Rules.events store !! i)); assumption.
  - intros key Hk.
    rewrite (foldl_insert_other (fun i => Rules.events store !! i)) by exact Hk.
    apply lookup_empty.
Qed.

Lemma check_event_allowed_fetches_state_witness :
  exists state_events store',
    Rules.check_event_allowed
      {| Rules.third_party_rules := Some SampleRules.needs_create |}
      SampleRules.create_event SampleRules.context SampleRules.store
    = Rules.mod_check_event_allowed SampleRules.needs_create
        SampleRules.create_event state_events store'
    /\ Rules.store_calls store' = [Rules.GetEvent "$c"; Rules.GetEvent "$gone"]
    /\ state_events !! ("m.room.create", "") = Some (Some SampleRules.create_event)
    /\ state_events !! ("m.room.member", "@a:b") = Some None.
Proof.
  assert (Hnd : NoDup (Rules.prev_state_ids SampleRules.context).*1).
  { simpl. apply NoDup_cons. split; [|apply NoDup_singleton].
    rewrite list_elem_of_singleton. discriminate. }
  destruct (check_event_allowed_fetches_state
              {| Rules.third_party_rules := Some SampleRules.needs_create |}
              SampleRules.needs_create SampleRules.create_event
              SampleRules.context SampleRules.store eq_refl Hnd)
    as (se & st & H1 & H2 & _ & _ & H5 & _).
  exists se, st. split; [exact H1|]. split; [rewrite H2; reflexivity|]. split.
  - etrans; [apply (H5 _ "$c"); simpl; set_solver | reflexivity].
  - etrans; [apply (H5 _ "$gone"); simpl; set_solver | reflexivity].
Defined.

(** * Further properties of [ThreadPool] *)

Lemma schedule_same_time {A} (t0 : Z) (a : A) l :
  Forall (fun c => Clock.getTime c = t0) l ->
  Clock.schedule {| Clock.getTime := t0; Clock.func := a |} l
  = l ++ [{| Clock.getTime := t0; Clock.func := a |}].
Proof.
  induction 1 as [|c l Hc Hl IH]; simpl; [reflexivity|].
  rewrite Hc, Z.ltb_irrefl, IH. reflexivity.
Qed.

Lemma submit_jobs jobs : forall w queued,
  Clock.calls (reactor w) = map (job_call (Clock.rightNow (reactor w))) queued ->
  let w' := run_ops (map OpCallInThreadWithCallback jobs) w in
  trace w' = trace w
  /\ Clock.rightNow (reactor w') = Clock.rightNow (reactor w)
  /\ Clock.calls (reactor w') =
     map (job_call (Clock.rightNow (reactor w))) (queued ++ jobs).
Proof.
  induction jobs as [|j jobs IH]; intros w queued Hq; cbv zeta.
  - simpl. rewrite app_nil_r. auto.
  - change (run_ops (map OpCallInThreadWithCallback (j :: jobs)) w)
      with (run_ops (map OpCallInThreadWithCallback jobs)
              (fst (callInThreadWithCallback j w))).
    remember (fst (callInThreadWithCallback j w)) as wj eqn:Ej.
    assert (Tj : trace wj = trace w) by (subst wj; reflexivity).
    assert (Nj : Clock.rightNow (reactor wj) = Clock.rightNow (reactor w))
      by (subst wj; reflexivity).
    assert (Cj : Clock.calls (reactor wj) =
                 map (job_call (Clock.rightNow (reactor w))) (queued ++ [j])).
    { subst wj. unfold_m. simpl. rewrite Hq. rewrite schedule_same_time.
      - rewrite map_app. reflexivity.
      - apply Forall_map. apply Forall_true. intros x. reflexivity. }
    clear Ej. rewrite <- Nj in Cj.
    destruct (IH wj (queued ++ [j]) Cj) as (It & In & Ic).
    rewrite It, In, Ic, Tj, Nj, <- app_assoc. auto.
Qed.

Lemma run_jobs jobs : forall w fuel now,
  Clock.calls (reactor w) = map (job_call now) jobs ->
  now + 0 <= Clock.rightNow (reactor w) ->
  (length jobs <= fuel)%nat ->
  snd (run_due fuel w) = Return tt
  /\ trace (fst (run_due fuel w)) = foldl job_trace (trace w) jobs
  /\ Clock.calls (reactor (fst (run_due fuel w))) = [].
Proof.
  induction jobs as [|j jobs IH]; intros w fuel now Hq Hnow Hfuel.
  - rewrite run_due_nil by exact Hq. auto.
  - destruct fuel as [|fuel]; [simpl in Hfuel; lia|].
    simpl in Hq.
    rewrite (run_due_now fuel w (job_call now j) (map (job_call now) jobs) Hq Hnow).
    simpl fire. unfold deferred_callback. cbv [bind modify get].
    remember (record EvDelayedCall
                (with_reactor (Clock.set_calls (map (job_call now) jobs)) w))
      as w0 eqn:E0.
    assert (Tr0 : trace w0 = trace w ++ [EvDelayedCall]) by (subst; reflexivity).
    assert (R0 : reactor w0 = Clock.set_calls (map (job_call now) jobs) (reactor w))
      by (subst; reflexivity).
    clear E0.
    assert (Hstep : forall ok res,
      snd (run_due fuel (record (EvOnResult (job_id j) ok res)
                           (record (EvFunction (job_id j)) w0))) = Return tt
      /\ trace (fst (run_due fuel (record (EvOnResult (job_id j) ok res)
                                     (record (EvFunction (job_id j)) w0))))
         = foldl job_trace
             (trace w ++ [EvDelayedCall; EvFunction (job_id j);
                          EvOnResult (job_id j) ok res]) jobs
      /\ Clock.calls (reactor (fst (run_due fuel
             (record (EvOnResult (job_id j) ok res)
                (record (EvFunction (job_id j)) w0))))) = []).
    { intros ok res.
      destruct (IH (record (EvOnResult (job_id j) ok res)
                      (record (EvFunction (job_id j)) w0)) fuel now)
        as (Is & It & Ic).
      - simpl. rewrite R0. reflexivity.
      - simpl. rewrite R0. exact Hnow.
      - simpl in Hfuel. lia.
      - split; [exact Is|]. split; [|exact Ic]. rewrite It. simpl.
        rewrite Tr0, <- !app_assoc. reflexivity. }
    rewrite Tr0. cbn [foldl].
    destruct (job_function j (trace w ++ [EvDelayedCall])) as [value|failure] eqn:Ejf.
    + replace (job_trace (trace w) j)
        with (trace w ++ [EvDelayedCall; EvFunction (job_id j);
                          EvOnResult (job_id j) true value])
        by (unfold job_trace; rewrite Ejf; reflexivity).
      apply Hstep.
    + replace (job_trace (trace w) j)
        with (trace w ++ [EvDelayedCall; EvFunction (job_id j);
                          EvOnResult (job_id j) false failure])
        by (unfold job_trace; rewrite Ejf; reflexivity).
      apply Hstep.
Qed.

(** X16: jobs submitted one after the other to an idle reactor run nothing
    while they are submitted; the next turn of the reactor runs them in
    submission order, each in a delayed call of its own in which its
    function is called and its [onResult] notified before the next job
    starts, and leaves the queue empty. *)
Theorem jobs_run_in_submission_order jobs w fuel amount :
  Clock.calls (reactor w) = [] ->
  (length jobs <= fuel)%nat ->
  0 <= amount ->
  let w1 := run_ops (map OpCallInThreadWithCallback jobs) w in
  let w2 := fst (advance fuel amount w1) in
  trace w1 = trace w
  /\ snd (advance fuel amount w1) = Return tt
  /\ trace w2 = foldl job_trace (trace w) jobs
  /\ Clock.calls (reactor w2) = [].
Proof.
  intros Hq Hfuel Hamount w1 w2.
  destruct (submit_jobs jobs w [] Hq) as (St & Sn & Sc). fold w1 in St, Sn, Sc.
  simpl in Sc.
  destruct (run_jobs jobs (with_reactor (Clock.tick amount) w1) fuel
              (Clock.rightNow (reactor w))) as (Rs & Rt & Rc).
  - simpl. exact Sc.
  - simpl. rewrite Sn. lia.
  - exact Hfuel.
  - split; [exact St|]. split; [exact Rs|]. split; [|exact Rc].
    unfold w2. change (fst (advance fuel amount w1))
      with (fst (run_due fuel (with_reactor (Clock.tick amount) w1))).
    rewrite Rt. simpl. rewrite St. reflexivity.
Qed.

Lemma jobs_run_in_submission_order_witness :
  trace (fst (advance 2 0
                (run_ops (map OpCallInThreadWithCallback
                            [Sample.failing_job; Sample.query_job])
                   Sample.connected_world)))
  = [EvDelayedCall; EvFunction 2; EvOnResult 2 false "boom";
     EvDelayedCall; EvFunction 1; EvOnResult 1 true "rows"].
Proof.
  assert (Hfuel : (length [Sample.failing_job; Sample.query_job] <= 2)%nat)
    by (simpl; lia).
  assert (Hamount : 0 <= 0) by lia.
  exact (proj1 (proj2 (proj2
    (jobs_run_in_submission_order [Sample.failing_job; Sample.query_job]
       Sample.connected_world 2 0 eq_refl Hfuel Hamount)))).
Defined.
